(** * Bakaloria book assistant: page resolver, query facade and HTTP surface

    A shallow embedding of [teacher_agent/tools.py] ([get_book_page]),
    [teacher_agent/service.py] ([process_agent_query], [ask_agent]),
    [api.py] ([query_agent], [ask_agent_simple], [batch_query],
    [stream_query]), [teacher_agent/agent.py] ([chat_with_agent]),
    [upload_books_to_gcs.py] ([upload_directory_to_gcs]) and
    [pdf_to_images.py] ([pdf_to_images]).

    Python exceptions are modelled by the error monad [exc]; the external
    collaborators (object store, HTTP client, local file system, ADK session
    service and runner) are records of fallible operations, so that every
    [try]/[except] of the source is written out. *)

From Stdlib Require Import ZArith Strings.Ascii Strings.String Strings.Byte.
From Stdlib Require Import DecimalString DecimalPos.
From stdpp Require Import base option list sorting gmap strings.

Set Warnings "-clear-no-such-hyp".

Local Open Scope string_scope.
Local Open Scope Z_scope.

(** ** Exceptions *)

(** A computation either returns a value or raises an [Exception] whose
    [str(e)] is the carried message. *)
Inductive exc (A : Type) : Type :=
  | Ok (a : A)
  | Raise (msg : string).
Arguments Ok {A} a.
Arguments Raise {A} msg.

Global Instance exc_ret : MRet exc := fun _ a => Ok a.
Global Instance exc_bind : MBind exc := fun _ _ f m =>
  match m with
  | Ok a => f a
  | Raise e => Raise e
  end.

(** [try: body except Exception as e: handler e] *)
Definition try_except {A} (body : exc A) (handler : string → exc A) : exc A :=
  match body with
  | Ok a => Ok a
  | Raise e => handler e
  end.

(** ** Python string primitives used by the sources *)

Module PyStr.

Definition startswith (s p : string) : bool := String.prefix p s.

Definition endswith (s p : string) : bool :=
  String.prefix (String.rev p) (String.rev s).

(** [sub in s] *)
Fixpoint contains (sub s : string) : bool :=
  String.prefix sub s ||
  match s with
  | "" => false
  | String _ s' => contains sub s'
  end.

(** [s.split(sep)] for a non-empty separator: the pieces between the
    non-overlapping occurrences of [sep], scanned from the left.  [skip]
    counts the characters of a matched separator still to be dropped and
    [cur] is the current piece, reversed. *)
Fixpoint split_go (sep : string) (skip : nat) (cur s : string) : list string :=
  match s with
  | "" => [String.rev cur]
  | String c s' =>
      match skip with
      | S k => split_go sep k cur s'
      | O =>
          if String.prefix sep s
          then String.rev cur :: split_go sep (Nat.pred (String.length sep)) "" s'
          else split_go sep O (String c cur) s'
      end
  end.
Definition split (s sep : string) : list string := split_go sep O "" s.

(** [sep.join(l)] *)
Fixpoint join (sep : string) (l : list string) : string :=
  match l with
  | [] => ""
  | [x] => x
  | x :: l' => x +:+ sep +:+ join sep l'
  end.

(** [s.replace(old, new)] for a non-empty [old]: every non-overlapping
    occurrence, from the left. *)
Definition replace (s old new : string) : string := join new (split s old).

(** [str(n)] for an [int]. *)
Definition str (n : Z) : string := NilZero.string_of_int (Z.to_int n).

(** *** [int(s)]

    A Python [str] is a sequence of code points; the model holds its UTF-8
    encoding, as the store and the file system do.  CPython's [int(s)]
    works in two steps (Objects/unicodeobject.c and Objects/longobject.c):

    - [_PyUnicode_TransformDecimalAndSpaceToASCII] maps the text to ASCII:
      a code point below 127 is kept, a Unicode white space becomes a
      blank, a Unicode decimal digit becomes the ASCII digit of its value,
      and at the first other code point the text is cut and closed by a
      question mark;
    - [PyLong_FromString] in base 10 reads that ASCII text: white space
      ([Py_ISSPACE]: bytes 9 to 13 and 32) around it is dropped, one sign is
      allowed, and the digits may be grouped by single underscores.

    The two tables are those of the Unicode character database 14.0 that
    CPython 3.11 ships.  The interpreter's limit on the number of digits
    (4300 by default) is not modelled: [int] is applied here to pieces of
    object names, which the store keeps below 1024 bytes. *)

(** Code points of 127 and above with the White_Space property (or
    bidirectional type WS, B or S): [Py_UNICODE_ISSPACE]. *)
Definition unicode_spaces : list N :=
  [133; 160; 5760; 8192; 8193; 8194; 8195; 8196; 8197; 8198; 8199; 8200;
   8201; 8202; 8232; 8233; 8239; 8287; 12288]%N.

(** Every Unicode decimal digit (category Nd) outside ASCII belongs to a run
    of ten consecutive code points valued 0 to 9; these are the code
    points of the zeros: [Py_UNICODE_TODECIMAL]. *)
Definition unicode_decimal_zeros : list N :=
  [1632; 1776; 1984; 2406; 2534; 2662; 2790; 2918; 3046; 3174; 3302; 3430;
   3558; 3664; 3792; 3872; 4160; 4240; 6112; 6160; 6470; 6608; 6784; 6800;
   6992; 7088; 7232; 7248; 42528; 43216; 43264; 43472; 43504; 43600; 44016;
   65296; 66720; 68912; 69734; 69872; 69942; 70096; 70384; 70736; 70864;
   71248; 71360; 71472; 71904; 72016; 72784; 73040; 73120; 92768; 92864;
   93008; 120782; 120792; 120802; 120812; 120822; 123200; 123632; 125264;
   130032]%N.

Definition unicode_isspace (cp : N) : bool :=
  existsb (N.eqb cp) unicode_spaces.

Definition unicode_todecimal (cp : N) : option N :=
  (λ zero, cp - zero)%N <$>
    List.find (λ zero, (zero <=? cp) && (cp <? zero + 10))%N
      unicode_decimal_zeros.

(** The ASCII character a code point of 127 or above is mapped to; [None]
    where the transformation cuts the text. *)
Definition transform_char (cp : N) : option ascii :=
  if unicode_isspace cp then Some " "%char
  else (λ d, ascii_of_N (48 + d)) <$> unicode_todecimal cp.

(** UTF-8: the number of continuation bytes a lead byte announces and the
    bits of the code point it carries. *)
Definition utf8_lead (b : N) : option (nat * N) :=
  if (b <? 192)%N then None
  else if (b <? 224)%N then Some (1%nat, b - 192)%N
  else if (b <? 240)%N then Some (2%nat, b - 224)%N
  else if (b <? 248)%N then Some (3%nat, b - 240)%N
  else None.

Definition utf8_continuation (b : N) : bool := (128 <=? b)%N && (b <? 192)%N.

(** [need] continuation bytes are still missing from the code point whose
    leading bits are [cp].  A byte sequence that encodes no code point does
    not come from a [str]; it is treated as a code point that is neither a
    white space nor a digit. *)
Fixpoint to_ascii_go (need : nat) (cp : N) (s : string) : string :=
  match s with
  | "" => match need with O => "" | S _ => "?" end
  | String c s' =>
      let b := N_of_ascii c in
      match need with
      | O =>
          if (b <? 127)%N then String c (to_ascii_go 0 0 s')
          else
            match utf8_lead b with
            | Some (n, bits) => to_ascii_go n bits s'
            | None => "?"
            end
      | S n =>
          if utf8_continuation b then
            let cp' := (64 * cp + (b - 128))%N in
            match n with
            | O =>
                match transform_char cp' with
                | Some a => String a (to_ascii_go 0 0 s')
                | None => "?"
                end
            | S _ => to_ascii_go n cp' s'
            end
          else "?"
      end
  end.

Definition to_ascii (s : string) : string := to_ascii_go 0 0 s.

(** [Py_ISSPACE] *)
Definition is_space (c : ascii) : bool :=
  let n := nat_of_ascii c in
  ((9 <=? n) && (n <=? 13) || (n =? 32))%nat.

Fixpoint lstrip (s : string) : string :=
  match s with
  | String c s' => if is_space c then lstrip s' else s
  | "" => ""
  end.
Definition strip (s : string) : string :=
  String.rev (lstrip (String.rev (lstrip s))).

(** The value of an ASCII digit, [_PyLong_DigitValue] below ten. *)
Definition digit (c : ascii) : option Z :=
  let n := nat_of_ascii c in
  if ((48 <=? n) && (n <=? 57))%nat then Some (Z.of_nat n - 48) else None.

(** [after_digit] tells whether the previous character was a digit, the
    only place where an underscore or the end of the text is accepted. *)
Fixpoint digits_go (acc : Z) (after_digit : bool) (s : string) : option Z :=
  match s with
  | "" => if after_digit then Some acc else None
  | String c s' =>
      match digit c with
      | Some d => digits_go (10 * acc + d) true s'
      | None =>
          if Ascii.eqb c "_" && after_digit
          then digits_go acc false s'
          else None
      end
  end.

(** [PyLong_FromString(s, &end, 10)] with [end] at the end of [s]. *)
Definition long_from_string (s : string) : option Z :=
  match strip s with
  | String "+" r => digits_go 0 false r
  | String "-" r => Z.opp <$> digits_go 0 false r
  | t => digits_go 0 false t
  end.

Definition int (s : string) : option Z := long_from_string (to_ascii s).

End PyStr.

(** ** Tool results ([teacher_agent/tools.py]) *)

Abbreviation bytes := (list byte).

(** [types.Part]: a piece of content, either text ([types.Part(text=...)])
    or an inline payload; [types.Part.from_bytes(data=..., mime_type=...)]
    builds a part whose inline payload is the pair of the raw bytes and their
    MIME type. *)
Record Blob := mkBlob { data : bytes; mime_type : string }.
Record Part := mkPart { text : option string; inline_data : option Blob }.

Definition Part_from_bytes (data : bytes) (mime_type : string) : exc Part :=
  Ok (mkPart None (Some (mkBlob data mime_type))).

(** The values stored in the dictionaries the tool returns. *)
Inductive Value :=
  | VStr (s : string)
  | VInt (n : Z)
  | VPart (p : Part).

Abbreviation Dict := (gmap string Value).

(** A dictionary display [{k1: v1, k2: v2, ...}]. *)
Definition dict (items : list (string * Value)) : Dict := list_to_map items.

(** ** External collaborators of the page resolver *)

(** The bucket as seen through [storage.Client()]: every call may raise.
    [gcs_list_blobs prefix max_results] stands for
    [list(bucket.list_blobs(prefix=..., max_results=...))] and returns the
    names of the listed blobs. *)
Record Gcs := mkGcs {
  gcs_client : exc unit;
  gcs_exists : string → exc bool;
  gcs_list_blobs : option string → option nat → exc (list string);
  gcs_download_as_bytes : string → exc bytes
}.

(** [requests.get(url)]: raises, or answers with a status code and a body. *)
Record Response := mkResponse { status_code : Z; content : bytes }.
Abbreviation Http := (string → exc Response).

(** The local file system of the development mode. *)
Record Fs := mkFs {
  fs_base_dir : string;                (* os.path.dirname(os.path.abspath(__file__)) *)
  fs_exists : string → bool;           (* os.path.exists *)
  fs_read : string → exc bytes         (* open(path, 'rb').read() *)
}.

(** [os.path.join(a, b)] on POSIX. *)
Definition os_path_join (a b : string) : string :=
  if PyStr.startswith b "/" then b
  else if String.eqb a "" || PyStr.endswith a "/" then a +:+ b
  else a +:+ "/" +:+ b.

(** A bucket without faults: a finite map from object names to contents. *)
Abbreviation Bucket := (gmap string bytes).

Definition bucket_names (b : Bucket) : list string := (map_to_list b).*1.

Definition bucket_list (b : Bucket) (prefix : option string) (max_results : option nat)
  : list string :=
  let names :=
    match prefix with
    | Some p => filter (λ k, PyStr.startswith k p = true) (bucket_names b)
    | None => bucket_names b
    end in
  match max_results with
  | Some n => take n names
  | None => names
  end.

Definition bucket_gcs (b : Bucket) : Gcs := {|
  gcs_client := Ok ();
  gcs_exists k := Ok (bool_decide (is_Some (b !! k)));
  gcs_list_blobs p m := Ok (bucket_list b p m);
  gcs_download_as_bytes k :=
    match b !! k with
    | Some v => Ok v
    | None => Raise ("404 GET " +:+ k)
    end
|}.

(** ** [get_book_page] *)

Definition BUCKET_NAME : string := "bakaloria-ai-assistance-books".
Definition USE_GCS : bool := true.

Definition page_filename (page_number : Z) : string :=
  "page_" +:+ PyStr.str page_number +:+ ".png".
Definition blob_path (book_name : string) (page_number : Z) : string :=
  book_name +:+ "/" +:+ page_filename page_number.
Definition public_url (book_name : string) (page_number : Z) : string :=
  "https://storage.googleapis.com/" +:+ BUCKET_NAME +:+ "/" +:+ blob_path book_name page_number.

(** The body of the loop over the listed blobs:
    [int(b.name.split("page_")[1].replace(".png", ""))], with the
    [IndexError] and [ValueError] it may raise turned into [None]. *)
Definition parse_page (name : string) : option Z :=
  if PyStr.endswith name ".png" then
    piece ← PyStr.split name "page_" !! 1%nat;
    PyStr.int (PyStr.replace piece ".png" "")
  else None.

Definition available_pages_of (blobs : list string) : list Z := omap parse_page blobs.

(** [min(l)] and [max(l)] of a list; the default is never used on a
    non-empty list. *)
Definition py_min (l : list Z) : Z :=
  match l with [] => 0 | x :: l' => foldr Z.min x l' end.
Definition py_max (l : list Z) : Z :=
  match l with [] => 0 | x :: l' => foldr Z.max x l' end.

(** [sorted(prefixes)] where [prefixes] is the set filled by the loop
    [if "/" in b.name: prefixes.add(b.name.split("/")[0])]. *)
Definition top_prefix (name : string) : option string :=
  if PyStr.contains "/" name then head (PyStr.split name "/") else None.

Definition prefixes_of (names : list string) : gset string :=
  foldl (λ prefixes name,
           match top_prefix name with
           | Some p => prefixes ∪ {[ p ]}
           | None => prefixes
           end) ∅ names.

Definition sorted_strings (s : gset string) : list string :=
  merge_sort String.le (elements s).

Definition book_not_found (book_name : string) (page_number : Z)
    (available_books : list string) : Dict :=
  dict [("status", VStr "error");
        ("message", VStr ("Book '" +:+ book_name +:+ "' not found. Available books: "
                          +:+ PyStr.join ", " available_books));
        ("book_name", VStr book_name);
        ("page_number", VInt page_number)].

Definition page_not_found (book_name : string) (page_number : Z)
    (page_range : string) : Dict :=
  dict [("status", VStr "error");
        ("message", VStr ("Page " +:+ PyStr.str page_number +:+ " not found in book '"
                          +:+ book_name +:+ "'. Available pages: " +:+ page_range));
        ("book_name", VStr book_name);
        ("page_number", VInt page_number)].

Definition page_not_found_local (book_name : string) (page_number : Z) : Dict :=
  dict [("status", VStr "error");
        ("message", VStr ("Page " +:+ PyStr.str page_number +:+ " not found in book '"
                          +:+ book_name +:+ "' (local mode)"));
        ("book_name", VStr book_name);
        ("page_number", VInt page_number)].

Definition page_success (use_gcs : bool) (book_name : string) (page_number : Z)
    (image_part : Part) : Dict :=
  let source := if use_gcs then "GCS" else "local" in
  dict [("status", VStr "success");
        ("message", VStr ("Successfully retrieved page " +:+ PyStr.str page_number
                          +:+ " from book '" +:+ book_name +:+ "' (" +:+ source +:+ ")"));
        ("image", VPart image_part);
        ("book_name", VStr book_name);
        ("page_number", VInt page_number)].

Definition read_error (book_name : string) (page_number : Z) (e : string) : Dict :=
  dict [("status", VStr "error");
        ("message", VStr ("Error reading image file: " +:+ e));
        ("book_name", VStr book_name);
        ("page_number", VInt page_number)].

Definition page_range_of (available_pages : list Z) : string :=
  match available_pages with
  | [] => "none"
  | _ => PyStr.str (py_min available_pages) +:+ "-" +:+ PyStr.str (py_max available_pages)
  end.

(** A block of the function either executes [return d] ([inl d]) or falls
    through with the image bytes ([inr image_bytes]). *)
Abbreviation Flow := (Dict + bytes)%type.

(** The inner [try] block: the primary store. *)
Definition primary_lookup (gcs : Gcs) (book_name : string) (page_number : Z) : exc Flow :=
  _ ← gcs_client gcs;
  present ← gcs_exists gcs (blob_path book_name page_number);
  if negb present then
    blobs ← gcs_list_blobs gcs (Some (book_name +:+ "/page_")) None;
    let available_pages := available_pages_of blobs in
    returned ←
      match available_pages with
      | [] =>
          book_blobs ← gcs_list_blobs gcs (Some (book_name +:+ "/")) (Some 1%nat);
          match book_blobs with
          | [] =>
              all_blobs ← gcs_list_blobs gcs None None;
              let available_books := sorted_strings (prefixes_of all_blobs) in
              Ok (Some (book_not_found book_name page_number available_books))
          | _ => Ok None
          end
      | _ => Ok None
      end;
    match returned with
    | Some d => Ok (inl d)
    | None =>
        let available_pages := merge_sort Z.le available_pages in
        Ok (inl (page_not_found book_name page_number (page_range_of available_pages)))
    end
  else
    image_bytes ← gcs_download_as_bytes gcs (blob_path book_name page_number);
    Ok (inr image_bytes).

(** The inner [except Exception as gcs_error]: the public URL. *)
Definition public_fallback (http : Http) (book_name : string) (page_number : Z)
    (gcs_error : string) : exc Flow :=
  response ← http (public_url book_name page_number);
  if bool_decide (status_code response ≠ 200)
  then Raise ("Failed to fetch from GCS: " +:+ gcs_error)
  else Ok (inr (content response)).

(** The [else] branch of [if USE_GCS]: local files. *)
Definition local_lookup (fs : Fs) (book_name : string) (page_number : Z) : exc Flow :=
  let books_dir := os_path_join (fs_base_dir fs) "books" in
  let book_path := os_path_join books_dir book_name in
  let page_path := os_path_join book_path (page_filename page_number) in
  if negb (fs_exists fs page_path) then
    Ok (inl (page_not_found_local book_name page_number))
  else
    image_bytes ← fs_read fs page_path;
    Ok (inr image_bytes).

(** The whole function for either value of the [USE_GCS] switch. *)
Definition get_book_page_mode (use_gcs : bool) (gcs : Gcs) (http : Http) (fs : Fs)
    (book_name : string) (page_number : Z) : exc Dict :=
  try_except
    (flow ← (if use_gcs
             then try_except (primary_lookup gcs book_name page_number)
                             (public_fallback http book_name page_number)
             else local_lookup fs book_name page_number);
     match flow with
     | inl d => Ok d
     | inr image_bytes =>
         image_part ← Part_from_bytes image_bytes "image/png";
         Ok (page_success use_gcs book_name page_number image_part)
     end)
    (λ e, Ok (read_error book_name page_number e)).

Definition get_book_page : Gcs → Http → Fs → string → Z → exc Dict :=
  get_book_page_mode USE_GCS.

(** ** The agent runtime as seen by the facade ([teacher_agent/service.py]) *)

(** [types.Content(role=..., parts=[...])]; [parts] may be missing. *)
Record Content := mkContent { role : string; parts : option (list Part) }.

(** An event yielded by [runner.run_async]. *)
Record Event := mkEvent { event_content : option Content; is_final_response : bool }.

(** The asynchronous generator returned by [runner.run_async]: it ends,
    yields an event and goes on, or raises.  Only runs that stop are
    modelled. *)
Inductive Events :=
  | EDone
  | EYield (event : Event) (rest : Events)
  | ERaise (msg : string).

Record Session := mkSession { s_id : string; s_events : list Content }.

(** The ADK library during one call of the facade, over session services of
    type [S]: the constructor [InMemorySessionService()], the two session
    operations the facade awaits, and
    [Runner(agent=root_agent, app_name=..., session_service=...).run_async(
     user_id=..., session_id=..., new_message=...)].  Each may raise; a
    failure to build the runner is a run that raises at once. *)
Record Adk (S : Type) := mkAdk {
  InMemorySessionService : exc S;
  get_session : S → string → string → string → exc (option Session);
  create_session : S → string → string → exc (Session * S);
  run_async : S → string → string → string → Content → Events
}.
Arguments InMemorySessionService {S} _.
Arguments get_session {S} _ _ _ _ _.
Arguments create_session {S} _ _ _ _.
Arguments run_async {S} _ _ _ _ _ _.

(** The library without faults.  A new in-memory service holds no session;
    [create_session] draws the identifier [uuid] and stores an empty session
    under (application, user, identifier); the runner looks the session up,
    appends the new message to its history and hands the history to the
    agent. *)
Abbreviation Sessions := (gmap (string * string * string) Session).

Definition adk_in_memory (uuid : string) (agent : list Content → Events) : Adk Sessions := {|
  InMemorySessionService := Ok ∅;
  get_session st app_name user_id session_id := Ok (st !! (app_name, user_id, session_id));
  create_session st app_name user_id :=
    let session := mkSession uuid [] in
    Ok (session, <[(app_name, user_id, uuid) := session]> st);
  run_async st app_name user_id session_id new_message :=
    match st !! (app_name, user_id, session_id) with
    | Some session => agent (s_events session ++ [new_message])%list
    | None => ERaise ("Session not found: " +:+ session_id)
    end
|}.

(** The dictionary returned by the facade; its four keys are fixed. *)
Record QueryResult := mkQueryResult {
  r_response : string;
  r_session_id : option string;
  r_status : string;
  r_error : option string
}.

(** Truth value of an [Optional[str]]: [None] and the empty text are false. *)
Definition truthy (s : option string) : bool :=
  match s with
  | Some s => negb (String.eqb s "")
  | None => false
  end.

(** The texts an event contributes to [response_parts]. *)
Definition event_texts (event : Event) : list string :=
  match event_content event with
  | Some c =>
      match parts c with
      | Some ps => omap (λ part, if truthy (text part) then text part else None) ps
      | None => []
      end
  | None => []
  end.

(** The [async for event in events] loop. *)
Fixpoint collect (events : Events) (response_parts : list string) : exc (list string) :=
  match events with
  | EDone => Ok response_parts
  | ERaise e => Raise e
  | EYield event rest =>
      let response_parts := (response_parts ++ event_texts event)%list in
      if is_final_response event then Ok response_parts
      else collect rest response_parts
  end.

Definition user_message (query : string) : Content :=
  mkContent "user" (Some [mkPart (Some query) None]).

(** The session the facade works with, and the service holding it. *)
Definition resolve_session {S} (adk : Adk S) (session_service : S)
    (app_name user_id : string) (session_id : option string) : exc (Session * S) :=
  if truthy session_id then
    found ← get_session adk session_service app_name user_id (default "" session_id);
    match found with
    | Some session => Ok (session, session_service)
    | None => create_session adk session_service app_name user_id
    end
  else create_session adk session_service app_name user_id.

Definition process_agent_query {S} (adk : Adk S) (query user_id : string)
    (session_id : option string) (app_name : string) : exc QueryResult :=
  try_except
    (session_service ← InMemorySessionService adk;
     '(session, session_service) ← resolve_session adk session_service app_name user_id session_id;
     let content := user_message query in
     let events := run_async adk session_service app_name user_id (s_id session) content in
     response_parts ← collect events [];
     let final_response := PyStr.join "" response_parts in
     Ok (mkQueryResult final_response (Some (s_id session)) "success" None))
    (λ e, Ok (mkQueryResult "" session_id "error" (Some e))).

(** Defaults of the keyword arguments. *)
Definition default_user : string := "default_user".
Definition book_assistant : string := "book_assistant".

(** [f"{x}"] of an [Optional[str]]. *)
Definition fmt_opt (s : option string) : string := default "None" s.

Definition ask_agent {S} (adk : Adk S) (query : string) (session_id : option string)
  : exc string :=
  result ← process_agent_query adk query default_user session_id book_assistant;
  if String.eqb (r_status result) "success"
  then Ok (r_response result)
  else Ok ("Error: " +:+ fmt_opt (r_error result)).

(** ** The HTTP surface ([api.py]) *)

Record QueryRequest := mkQueryRequest {
  q_query : string;
  q_session_id : option string;
  q_user_id : string
}.

Record QueryResponse := mkQueryResponse {
  response : string;
  session_id : string;
  status : string;
  error : option string
}.

Record SimpleQueryRequest := mkSimpleQueryRequest {
  sq_query : string;
  sq_session_id : option string
}.

Record SimpleQueryResponse := mkSimpleQueryResponse { simple_response : string }.

(** What an endpoint hands back to the framework: a body, or
    [raise HTTPException(status_code=..., detail=...)]. *)
Inductive Endpoint (A : Type) :=
  | Returns (body : A)
  | HTTPException (status_code : Z) (detail : string).
Arguments Returns {A} body.
Arguments HTTPException {A} status_code detail.

Section Api.
(** [str(e)] of the [ValidationError] pydantic raises when the required
    [str] field [session_id] of [QueryResponse] is given [None]. *)
Variable validation_error : string.

Context {Svc : Type}.

(** The validating constructor [QueryResponse(response=..., session_id=...,
    status=..., error=...)]. *)
Definition QueryResponse_init (response : string) (session_id : option string)
    (status : string) (error : option string) : exc QueryResponse :=
  match session_id with
  | Some sid => Ok (mkQueryResponse response sid status error)
  | None => Raise validation_error
  end.

Definition query_agent (adk : Adk Svc) (request : QueryRequest) : Endpoint QueryResponse :=
  match
    (result ← process_agent_query adk (q_query request) (q_user_id request)
                                  (q_session_id request) book_assistant;
     QueryResponse_init (r_response result) (r_session_id result)
                        (r_status result) (r_error result))
  with
  | Ok body => Returns body
  | Raise e => HTTPException 500 e
  end.

Definition ask_agent_simple (adk : Adk Svc) (request : SimpleQueryRequest)
  : Endpoint SimpleQueryResponse :=
  match
    (response ← ask_agent adk (sq_query request) (sq_session_id request);
     Ok (mkSimpleQueryResponse response))
  with
  | Ok body => Returns body
  | Raise e => HTTPException 500 e
  end.

(** [x or ""] for an [Optional[str]]. *)
Definition or_empty (s : option string) : string := default "" s.

(** One turn of the loop of [batch_query]: the entry appended to
    [results] for [query_request]. *)
Definition batch_entry (adk : Adk Svc) (query_request : QueryRequest) : exc QueryResponse :=
  try_except
    (result ← process_agent_query adk (q_query query_request) (q_user_id query_request)
                                  (q_session_id query_request) book_assistant;
     QueryResponse_init (r_response result) (r_session_id result)
                        (r_status result) (r_error result))
    (λ e, QueryResponse_init "" (Some (or_empty (q_session_id query_request)))
                             "error" (Some e)).

(** The loop itself.  The library behaves as [world i] during the [i]-th
    call of the facade; [i] counts the queries already handled. *)
Fixpoint batch_loop (world : nat → Adk Svc) (i : nat) (queries : list QueryRequest)
    (results : list QueryResponse) : exc (list QueryResponse) :=
  match queries with
  | [] => Ok results
  | query_request :: rest =>
      entry ← batch_entry (world i) query_request;
      batch_loop world (S i) rest (results ++ [entry])%list
  end.

Definition batch_query (world : nat → Adk Svc) (queries : list QueryRequest)
  : exc (list QueryResponse) :=
  batch_loop world O queries [].
End Api.

(** ** The streaming endpoint ([api.py], [stream_query]) *)

(** A line feed. *)
Definition nl : string := String "010" "".

Section Stream.
(** [json.dumps(result)] for the dictionary of the facade and
    [json.dumps({"error": str(e), "status": "error"})]; both dictionaries
    hold texts and [None] only, which [json.dumps] always encodes. *)
Variable json_dumps_result : QueryResult → string.
Variable json_dumps_error : string → string.

Context {Svc : Type}.

(** The frames yielded by the generator [generate] of [stream_query], in
    order. *)
Definition generate (adk : Adk Svc) (request : QueryRequest) : list string :=
  match process_agent_query adk (q_query request) (q_user_id request)
                            (q_session_id request) book_assistant with
  | Ok result =>
      ["data: " +:+ json_dumps_result result +:+ nl +:+ nl;
       "data: [DONE]" +:+ nl +:+ nl]
  | Raise e =>
      ["data: " +:+ json_dumps_error e +:+ nl +:+ nl]
  end.

Definition stream_query (adk : Adk Svc) (request : QueryRequest) : list string :=
  generate adk request.
End Stream.

(** ** The command-line chat ([teacher_agent/agent.py]) *)

Definition APP_NAME : string := "book_assistant".
Definition USER_ID : string := "user_001".

(** [s * n] for a text [s]. *)
Fixpoint repeat_str (s : string) (n : nat) : string :=
  match n with
  | O => ""
  | S n' => s +:+ repeat_str s n'
  end.

(** The loop of [chat_with_agent]: the text printed so far, and whether the
    run raised. *)
Fixpoint print_final (events : Events) (out : string) : string * exc unit :=
  match events with
  | EDone => (out, Ok ())
  | ERaise e => (out, Raise e)
  | EYield event rest =>
      print_final rest
        (if is_final_response event
         then out +:+ PyStr.join "" (event_texts event)
         else out)
  end.

(** [chat_with_agent]: what is written to the standard output, and the
    exception that escapes, if any. *)
Definition chat_with_agent {S} (adk : Adk S) (session_service : S)
    (query session_id : string) : string * exc unit :=
  let content := user_message query in
  let out := nl +:+ repeat_str "=" 80 +:+ nl in
  let out := out +:+ "USER: " +:+ query +:+ nl in
  let out := out +:+ repeat_str "=" 80 +:+ nl +:+ nl in
  let events := run_async adk session_service APP_NAME USER_ID session_id content in
  let out := out +:+ "AGENT: " in
  match print_final events out with
  | (out, Ok _) => (out +:+ nl +:+ nl, Ok ())
  | (out, Raise e) => (out, Raise e)
  end.

(** ** Publishing pages ([upload_books_to_gcs.py]) *)

(** What [Path(local_directory).rglob] meets under the directory: paths
    relative to it, each with what [blob.upload_from_filename] does for it.
    [EFile content]: the entry is a file that is read and stored with this
    content.  [ERaises e]: the call raises an exception whose [str] is [e]
    and stores nothing; the entry is a directory, a file that cannot be read
    or has vanished since the listing, or the request is refused by the
    store or does not reach it. *)
Inductive Entry :=
  | EFile (content : bytes)
  | ERaises (e : string).

Abbreviation Tree := (list (string * Entry)).

(** [Path(local_directory).rglob("*.png")]: the entries whose last
    component ends in ".png". *)
Definition rglob_png (tree : Tree) : Tree :=
  filter (λ entry, PyStr.endswith entry.1 ".png" = true) tree.

(** [str(n)] for a count. *)
Definition str_nat (n : nat) : string := PyStr.str (Z.of_nat n).

(** The loop of [upload_directory_to_gcs] over the files still to upload:
    the bucket and the printed lines after it, and the count reached or the
    exception of [blob.upload_from_filename], which nothing catches. *)
Fixpoint upload_loop (files : Tree) (bucket : Bucket)
    (uploaded_count total_files : nat) (out : list string)
  : Bucket * list string * exc nat :=
  match files with
  | [] => (bucket, out, Ok uploaded_count)
  | (blob_name, ERaises e) :: _ => (bucket, out, Raise e)
  | (blob_name, EFile content) :: rest =>
      let bucket := <[blob_name := content]> bucket in
      let uploaded_count := S uploaded_count in
      let out :=
        if (uploaded_count mod 10 =? 0)%nat
        then (out ++ ["   Uploaded " +:+ str_nat uploaded_count +:+ "/"
                      +:+ str_nat total_files +:+ " files..."])%list
        else out in
      upload_loop rest bucket uploaded_count total_files out
  end.

Definition upload_directory_to_gcs (bucket : Bucket) (bucket_name local_directory : string)
    (tree : Tree) : Bucket * list string * exc nat :=
  let total_files := length (rglob_png tree) in
  let out := ["📤 Uploading " +:+ str_nat total_files +:+ " PNG files to GCS..."] in
  match upload_loop (rglob_png tree) bucket 0 total_files out with
  | (bucket, out, Ok uploaded_count) =>
      (bucket,
       (out ++ ["✅ Successfully uploaded " +:+ str_nat uploaded_count
                +:+ " files to gs://" +:+ bucket_name +:+ "/"])%list,
       Ok uploaded_count)
  | (bucket, out, Raise e) => (bucket, out, Raise e)
  end.

(** ** Rasterising a PDF ([pdf_to_images.py]) *)

(** How a call ends: it returns, it leaves through [sys.exit(code)], or an
    exception escapes. *)
Inductive Outcome :=
  | Returned
  | SysExit (code : Z)
  | Uncaught (msg : string).

(** [s.upper()] on ASCII text. *)
Definition upper_char (c : ascii) : ascii :=
  let n := nat_of_ascii c in
  if ((97 <=? n) && (n <=? 122))%nat then ascii_of_nat (n - 32) else c.
Fixpoint upper (s : string) : string :=
  match s with
  | "" => ""
  | String c s' => String (upper_char c) (upper s')
  end.

Section Pdf.
(** The type of the page images [convert_from_path] returns. *)
Variable Image : Type.

(** The collaborators of [pdf_to_images]: [os.path.exists],
    [Path(p).stem], [os.makedirs(d, exist_ok=True)],
    [convert_from_path(p, dpi=...)] and [image.save(path, format)]. *)
Record PdfEnv := mkPdfEnv {
  pdf_exists : string → bool;
  pdf_stem : string → string;
  pdf_makedirs : string → exc unit;
  convert_from_path : string → Z → exc (list Image);
  image_save : Image → string → string → exc unit
}.

(** What a call leaves behind: the printed lines, the images saved (path,
    image, format) in the order of the calls of [save], and how it ended. *)
Record PdfRun := mkPdfRun {
  printed : list string;
  saved : list (string * Image * string);
  outcome : Outcome
}.

Definition image_filename (i : nat) (image_format : string) : string :=
  "page_" +:+ str_nat i +:+ "." +:+ image_format.

(** The loop [for i, image in enumerate(images, start=1)], from page [i]
    on; an exception of [save] is handed to the caller's handler. *)
Fixpoint save_pages (env : PdfEnv) (output_dir image_format : string) (i : nat)
    (images : list Image) (out : list string) (files : list (string * Image * string))
  : list string * list (string * Image * string) * exc unit :=
  match images with
  | [] => (out, files, Ok ())
  | image :: rest =>
      let image_filename := image_filename i image_format in
      let image_path := os_path_join output_dir image_filename in
      match image_save env image image_path (upper image_format) with
      | Raise e => (out, files, Raise e)
      | Ok _ =>
          save_pages env output_dir image_format (S i) rest
            (out ++ ["Saved: " +:+ image_filename])%list
            (files ++ [(image_path, image, upper image_format)])%list
      end
  end.

Definition pdf_to_images (env : PdfEnv) (pdf_path : string) (output_dir : option string)
    (image_format : string) (dpi : Z) : PdfRun :=
  if negb (pdf_exists env pdf_path) then
    mkPdfRun ["Error: PDF file '" +:+ pdf_path +:+ "' not found."] [] (SysExit 1)
  else
    let pdf_name := pdf_stem env pdf_path in
    let output_dir :=
      match output_dir with
      | None => pdf_name +:+ "_images"
      | Some d => d
      end in
    match pdf_makedirs env output_dir with
    | Raise e => mkPdfRun [] [] (Uncaught e)
    | Ok _ =>
        let out := ["Converting '" +:+ pdf_path +:+ "' to images...";
                    "Output directory: " +:+ output_dir] in
        match convert_from_path env pdf_path dpi with
        | Raise e =>
            mkPdfRun (out ++ ["Error during conversion: " +:+ e])%list [] (SysExit 1)
        | Ok images =>
            let out := (out ++ ["Total pages: " +:+ str_nat (length images)])%list in
            match save_pages env output_dir image_format 1 images out [] with
            | (out, files, Ok _) =>
                mkPdfRun (out ++ [nl +:+ "Conversion complete! " +:+ str_nat (length images)
                                  +:+ " images saved to '" +:+ output_dir +:+ "'"])%list
                         files Returned
            | (out, files, Raise e) =>
                mkPdfRun (out ++ ["Error during conversion: " +:+ e])%list files (SysExit 1)
            end
        end
    end.
End Pdf.

(** * Vocabulary of the properties and example inputs *)

(** The five dictionaries [get_book_page] can return for given arguments. *)
Inductive resolver_result (book_name : string) (page_number : Z) : Dict → Prop :=
  | res_book_not_found books :
      resolver_result book_name page_number (book_not_found book_name page_number books)
  | res_page_not_found range :
      resolver_result book_name page_number (page_not_found book_name page_number range)
  | res_page_not_found_local :
      resolver_result book_name page_number (page_not_found_local book_name page_number)
  | res_success use_gcs image_bytes :
      resolver_result book_name page_number
        (page_success use_gcs book_name page_number
           (mkPart None (Some (mkBlob image_bytes "image/png"))))
  | res_read_error e :
      resolver_result book_name page_number (read_error book_name page_number e).

(** The shape shared by every returned dictionary. *)
Definition well_shaped (book_name : string) (page_number : Z) (d : Dict) : Prop :=
  (d !! "status" = Some (VStr "success") ∨ d !! "status" = Some (VStr "error"))
  ∧ (∃ m, d !! "message" = Some (VStr m))
  ∧ d !! "book_name" = Some (VStr book_name)
  ∧ d !! "page_number" = Some (VInt page_number)
  ∧ (is_Some (d !! "image") ↔ d !! "status" = Some (VStr "success")).

(** The characters before the first slash. *)
Fixpoint until_slash (s : string) : string :=
  match s with
  | "" => ""
  | String c s' => if Ascii.eqb c "/" then "" else String c (until_slash s')
  end.

(** Smallest and largest element of a list of page numbers. *)
Definition is_min (a : Z) (l : list Z) : Prop := a ∈ l ∧ ∀ x, x ∈ l → a ≤ x.
Definition is_max (c : Z) (l : list Z) : Prop := c ∈ l ∧ ∀ x, x ∈ l → x ≤ c.

(** A store that is down, a public endpoint that is down or answers 404. *)
Definition gcs_down (e : string) : Gcs :=
  mkGcs (Raise e) (λ _, Raise e) (λ _ _, Raise e) (λ _, Raise e).
Definition http_down (e : string) : Http := λ _, Raise e.
Definition http_status (code : Z) (body : bytes) : Http := λ _, Ok (mkResponse code body).
Definition fs_empty : Fs := mkFs "/srv/teacher_agent" (λ _, false) (λ _, Raise "no such file").

(** Buckets used as examples. *)
Definition bucket_one_page : Bucket := {[ "math-1/page_5.png" := [x89; x50; x4e; x47] ]}.

(** The top-level prefixes of a bucket: the texts without a slash that are
    followed by a slash at the start of some object name. *)
Definition top_level_prefix (b : Bucket) (p : string) : Prop :=
  PyStr.contains "/" p = false ∧ ∃ rest, is_Some (b !! (p +:+ "/" +:+ rest)).

Definition bucket_two_books : Bucket :=
  {[ "math-1/page_1.png" := [x01]; "math-2/page_1.png" := [x02]; "readme.txt" := [x03] ]}.

(** A book folder that holds a cover and no page. *)
Definition bucket_cover_only : Bucket := {[ "b/cover.jpg" := [xff; xd8] ]}.

(** The page numbers the resolver reads off the store for a book: those of
    the objects listed under "{book_name}/page_" whose name ends in ".png"
    and whose text after "page_" parses as an integer. *)
Definition parsed_page (b : Bucket) (book_name : string) (x : Z) : Prop :=
  ∃ k, is_Some (b !! k)
       ∧ PyStr.startswith k (book_name +:+ "/page_") = true
       ∧ parse_page k = Some x.

Definition bucket_with_gap : Bucket :=
  {[ "m/page_1.png" := [x01]; "m/page_3.png" := [x03];
     "m/page_x.png" := [x04]; "m/page_9.jpg" := [x05] ]}.

(** Pages 1 to 3 of a book whose name contains "page_". *)
Definition bucket_page_slug : Bucket :=
  {[ "my_page_book/page_1.png" := [x01]; "my_page_book/page_2.png" := [x02];
     "my_page_book/page_3.png" := [x03] ]}.

(** The run raises before any event flagged as the final response. *)
Inductive raises_before_final : Events → string → Prop :=
  | rbf_raise e : raises_before_final (ERaise e) e
  | rbf_yield event rest e :
      is_final_response event = false →
      raises_before_final rest e →
      raises_before_final (EYield event rest) e.

(** Where an exception can arise in the [try] block of the facade: building
    the session service, looking the session up, creating one, or running
    the agent and draining its events. *)
Inductive facade_failure {S} (adk : Adk S) (query user_id : string)
    (session_id : option string) (app_name : string) (e : string) : Prop :=
  | fail_service :
      InMemorySessionService adk = Raise e →
      facade_failure adk query user_id session_id app_name e
  | fail_get_session svc sid :
      InMemorySessionService adk = Ok svc →
      session_id = Some sid → sid ≠ "" →
      get_session adk svc app_name user_id sid = Raise e →
      facade_failure adk query user_id session_id app_name e
  | fail_create_unknown svc sid :
      InMemorySessionService adk = Ok svc →
      session_id = Some sid → sid ≠ "" →
      get_session adk svc app_name user_id sid = Ok None →
      create_session adk svc app_name user_id = Raise e →
      facade_failure adk query user_id session_id app_name e
  | fail_create_new svc :
      InMemorySessionService adk = Ok svc →
      session_id = None ∨ session_id = Some "" →
      create_session adk svc app_name user_id = Raise e →
      facade_failure adk query user_id session_id app_name e
  | fail_run svc session svc' :
      InMemorySessionService adk = Ok svc →
      resolve_session adk svc app_name user_id session_id = Ok (session, svc') →
      raises_before_final
        (run_async adk svc' app_name user_id (s_id session) (user_message query)) e →
      facade_failure adk query user_id session_id app_name e.

(** An agent that fails while answering. *)
Definition agent_raises (e : string) : list Content → Events := λ _, ERaise e.

(** An agent that answers with one final text. *)
Definition say (reply : string) : Events :=
  EYield (mkEvent (Some (mkContent "model" (Some [mkPart (Some reply) None]))) true) EDone.

(** An agent that answers with the number of messages in the history it is
    given, so that its answer shows whether earlier turns reached it. *)
Definition counting_agent : list Content → Events :=
  λ history, say (PyStr.str (Z.of_nat (length history))).

(** A request to [/query] that omits [session_id]. *)
Definition request_without_session : QueryRequest :=
  mkQueryRequest "What is on page 5 of math-1?" None default_user.

(** The runtime of the batch example: a query with an empty text makes the
    agent fail, the others are answered. *)
Definition picky_agent : list Content → Events := λ history,
  match last history with
  | Some (mkContent _ (Some [mkPart (Some "") _])) => ERaise "empty query"
  | _ => say "ok"
  end.

Definition batch_world (i : nat) : Adk Sessions :=
  adk_in_memory ("s-" +:+ PyStr.str (Z.of_nat i)) picky_agent.

Definition batch_of_three : list QueryRequest :=
  [mkQueryRequest "page 1 of math-1" None default_user;
   mkQueryRequest "" (Some "s-9") default_user;
   mkQueryRequest "page 3 of math-1" None default_user].

(** Every character is a decimal digit. *)
Fixpoint all_digits (s : string) : bool :=
  match s with
  | "" => true
  | String c s' => bool_decide (is_Some (PyStr.digit c)) && all_digits s'
  end.

(** The value of the digits of [d] read after the digits that gave [acc]. *)
Fixpoint uint_value (acc : Z) (d : Decimal.uint) : Z :=
  match d with
  | Decimal.Nil => acc
  | Decimal.D0 d => uint_value (10 * acc + 0) d
  | Decimal.D1 d => uint_value (10 * acc + 1) d
  | Decimal.D2 d => uint_value (10 * acc + 2) d
  | Decimal.D3 d => uint_value (10 * acc + 3) d
  | Decimal.D4 d => uint_value (10 * acc + 4) d
  | Decimal.D5 d => uint_value (10 * acc + 5) d
  | Decimal.D6 d => uint_value (10 * acc + 6) d
  | Decimal.D7 d => uint_value (10 * acc + 7) d
  | Decimal.D8 d => uint_value (10 * acc + 8) d
  | Decimal.D9 d => uint_value (10 * acc + 9) d
  end.

(** No character is white space. *)
Fixpoint no_spaces (s : string) : bool :=
  match s with
  | "" => true
  | String c s' => negb (PyStr.is_space c) && no_spaces s'
  end.

(** The character [a] does not occur in [s]. *)
Fixpoint lacks (a : ascii) (s : string) : bool :=
  match s with
  | "" => true
  | String c s' => negb (Ascii.eqb c a) && lacks a s'
  end.

(** The path the local mode looks a page up under. *)
Definition local_page_path (fs : Fs) (book_name : string) (page_number : Z) : string :=
  os_path_join (os_path_join (os_path_join (fs_base_dir fs) "books") book_name)
               (page_filename page_number).

(** A development tree with one page on disk. *)
Definition fs_one_page : Fs :=
  mkFs "/srv/teacher_agent"
       (λ p, String.eqb p "/srv/teacher_agent/books/math-1/page_5.png")
       (λ p, if String.eqb p "/srv/teacher_agent/books/math-1/page_5.png"
             then Ok [x89; x50] else Raise "no such file").

(** The run that yields the events [es] in order and goes on as [rest]. *)
Definition yields (es : list Event) (rest : Events) : Events := foldr EYield rest es.

(** The texts carried by a list of events, in order. *)
Definition texts_of (es : list Event) : list string := concat (event_texts <$> es).

(** An event carrying one text. *)
Definition text_event (reply : string) (final : bool) : Event :=
  mkEvent (Some (mkContent "model" (Some [mkPart (Some reply) None]))) final.

(** An agent that thinks aloud, answers, and then fails. *)
Definition chatty_agent : list Content → Events := λ _,
  yields [text_event "Looking at page 5. " false]
         (EYield (text_event "It is about limits." true) (ERaise "connection lost")).

(** What [chat_with_agent] prints before the answer. *)
Definition chat_header (query : string) : string :=
  nl +:+ repeat_str "=" 80 +:+ nl +:+ "USER: " +:+ query +:+ nl
  +:+ repeat_str "=" 80 +:+ nl +:+ nl +:+ "AGENT: ".

(** The events flagged as final among [es]. *)
Definition final_events (es : list Event) : list Event :=
  filter (λ event, is_final_response event = true) es.

(** A local books directory with two pages, a cover and a note. *)
Definition tree_books : Tree :=
  [("math-1/page_1.png", EFile [x01]); ("math-1/page_2.png", EFile [x02]);
   ("math-1/cover.jpg", EFile [x03]); ("notes.txt", EFile [x04])].

(** The pages of an upload: the files of the tree whose name ends in
    ".png". *)
Definition png_file (tree : Tree) (k : string) (content : bytes) : Prop :=
  (k, EFile content) ∈ tree ∧ PyStr.endswith k ".png" = true.

(** The file [pdf_to_images] writes for the page at index [j] (from 0) of
    the document. *)
Definition page_file {Image} (output_dir image_format : string) (j : nat) (image : Image)
  : string * Image * string :=
  (os_path_join output_dir ("page_" +:+ str_nat (S j) +:+ "." +:+ image_format),
   image, upper image_format).

(** The directory [pdf_to_images] writes to. *)
Definition output_dir_of {Image} (env : PdfEnv Image) (pdf_path : string)
    (output_dir : option string) : string :=
  default (pdf_stem Image env pdf_path +:+ "_images") output_dir.

(** A converter over a document of three pages, named by their texts, in
    which the page "torn" cannot be saved. *)
Definition pdf_env_torn : PdfEnv string :=
  mkPdfEnv string
    (λ p, String.eqb p "12-sci-math-1.pdf")
    (λ _, "12-sci-math-1")
    (λ _, Ok ())
    (λ _ _, Ok ["cover"; "torn"; "index"])
    (λ image _ _, if String.eqb image "torn" then Raise "cannot write" else Ok ()).

(** A converter over a document of two pages in which every save
    succeeds. *)
Definition pdf_env_ok : PdfEnv string :=
  mkPdfEnv string
    (λ p, String.eqb p "12-sci-math-1.pdf")
    (λ _, "12-sci-math-1")
    (λ _, Ok ())
    (λ _ _, Ok ["cover"; "index"])
    (λ _ _ _, Ok ()).

(** A tree in which a directory is named like a page: opening it for the
    upload raises [IsADirectoryError]. *)
Definition tree_with_png_dir : Tree :=
  [("math-1/page_1.png", EFile [x01]);
   ("math-1/old.png",
    ERaises "[Errno 21] Is a directory: 'teacher_agent/books/math-1/old.png'");
   ("math-1/page_2.png", EFile [x02])].

(** A tree whose second page meets a store that refuses the request. *)
Definition tree_with_refused_upload : Tree :=
  [("math-1/page_1.png", EFile [x01]);
   ("math-1/page_2.png", ERaises "403 POST: caller does not have storage.objects.create access");
   ("math-1/page_3.png", EFile [x03])].

(** * Properties *)

(** ** Sanity checks of the string primitives *)

Example split_page : PyStr.split "math-1/page_12.png" "page_" = ["math-1/"; "12.png"].
Proof. reflexivity. Qed.
Example split_slash : PyStr.split "math-1/page_12.png" "/" = ["math-1"; "page_12.png"].
Proof. reflexivity. Qed.
Example split_trailing : PyStr.split "a/" "/" = ["a"; ""].
Proof. reflexivity. Qed.
Example replace_png : PyStr.replace "12.png" ".png" "" = "12".
Proof. reflexivity. Qed.
Example str_examples : PyStr.str (-3) = "-3" ∧ PyStr.str 0 = "0" ∧ PyStr.str 120 = "120".
Proof. by vm_compute. Qed.
Example int_examples :
  PyStr.int "12" = Some 12 ∧ PyStr.int " -7 " = Some (-7) ∧ PyStr.int "1_0" = Some 10
  ∧ PyStr.int "x" = None ∧ PyStr.int "" = None ∧ PyStr.int "1__0" = None
  ∧ PyStr.int "x/" = None ∧ PyStr.int "007" = Some 7.
Proof. by vm_compute. Qed.
(** Digits and white space outside ASCII count; the separators of bytes 28
    to 31, white space for [str.strip], do not. *)
Example int_unicode_examples :
  PyStr.int "٣" = Some 3 ∧ PyStr.int "1٣" = Some 13 ∧ PyStr.int "-٣_５" = Some (-35)
  ∧ PyStr.int " ٣　" = Some 3 ∧ PyStr.int "é" = None ∧ PyStr.int "3€" = None
  ∧ PyStr.int (String "028" "5") = None ∧ PyStr.int (String "5" (String "031" "")) = None
  ∧ PyStr.int (String "012" "5") = Some 5.
Proof. by vm_compute. Qed.
Example endswith_examples :
  PyStr.endswith "b/page_1.png" ".png" = true ∧ PyStr.endswith "b/cover.jpg" ".png" = false.
Proof. by vm_compute. Qed.
Example parse_page_examples :
  parse_page "math-1/page_12.png" = Some 12
  ∧ parse_page "math-1/page_x.png" = None
  ∧ parse_page "math-1/page_12.jpg" = None
  ∧ parse_page "page_x/page_3.png" = None
  ∧ parse_page "math-1/page_٣.png" = Some 3.
Proof. by vm_compute. Qed.
Example os_path_join_examples :
  os_path_join "/srv/app" "books" = "/srv/app/books"
  ∧ os_path_join "/srv/app/" "books" = "/srv/app/books"
  ∧ os_path_join "/srv/app" "/etc" = "/etc".
Proof. by vm_compute. Qed.

(** ** Shape of the returned dictionaries *)

Local Arguments book_not_found : simpl never.
Local Arguments page_not_found : simpl never.
Local Arguments page_not_found_local : simpl never.
Local Arguments page_success : simpl never.
Local Arguments read_error : simpl never.
Local Arguments blob_path : simpl never.
Local Arguments public_url : simpl never.
Local Arguments os_path_join : simpl never.
Local Arguments bucket_list : simpl never.
Local Arguments bucket_names : simpl never.
Local Arguments available_pages_of : simpl never.
Local Arguments sorted_strings : simpl never.
Local Arguments prefixes_of : simpl never.
Local Arguments page_range_of : simpl never.

Local Opaque book_not_found page_not_found page_not_found_local page_success read_error.

Lemma get_book_page_mode_result use_gcs gcs http fs book_name page_number :
  ∃ d, get_book_page_mode use_gcs gcs http fs book_name page_number = Ok d
       ∧ resolver_result book_name page_number d.
Proof.
  unfold get_book_page_mode, primary_lookup, public_fallback, local_lookup,
    Part_from_bytes, try_except.
  destruct use_gcs; simpl.
  - destruct (gcs_client gcs) as [[]|e0]; simpl.
    + destruct (gcs_exists gcs _) as [[]|e1]; simpl.
      * destruct (gcs_download_as_bytes gcs _) as [v|e2]; simpl;
          [eexists; split; [done|constructor]|].
        destruct (http _) as [r|e3]; simpl; [|eexists; split; [done|constructor]].
        case_bool_decide; simpl; eexists; (split; [done|constructor]).
      * destruct (gcs_list_blobs gcs (Some _) None) as [blobs|e2]; simpl.
        -- destruct (available_pages_of blobs) as [|p ps]; simpl;
             [|eexists; split; [done|constructor]].
           destruct (gcs_list_blobs gcs (Some _) (Some _)) as [[|x xs]|e3]; simpl.
           ++ destruct (gcs_list_blobs gcs None None) as [all|e4]; simpl;
                [eexists; split; [done|constructor]|].
              destruct (http _) as [r|e5]; simpl; [|eexists; split; [done|constructor]].
              case_bool_decide; simpl; eexists; (split; [done|constructor]).
           ++ eexists; split; [done|constructor].
           ++ destruct (http _) as [r|e5]; simpl; [|eexists; split; [done|constructor]].
              case_bool_decide; simpl; eexists; (split; [done|constructor]).
        -- destruct (http _) as [r|e5]; simpl; [|eexists; split; [done|constructor]].
           case_bool_decide; simpl; eexists; (split; [done|constructor]).
      * destruct (http _) as [r|e5]; simpl; [|eexists; split; [done|constructor]].
        case_bool_decide; simpl; eexists; (split; [done|constructor]).
    + destruct (http _) as [r|e5]; simpl; [|eexists; split; [done|constructor]].
      case_bool_decide; simpl; eexists; (split; [done|constructor]).
  - destruct (fs_exists fs _); simpl; [|eexists; split; [done|constructor]].
    destruct (fs_read fs _) as [v|e]; simpl; eexists; (split; [done|constructor]).
Qed.

Local Transparent book_not_found page_not_found page_not_found_local page_success read_error.

Lemma error_dict_well_shaped book_name page_number m :
  well_shaped book_name page_number
    (dict [("status", VStr "error"); ("message", VStr m);
           ("book_name", VStr book_name); ("page_number", VInt page_number)]).
Proof.
  split; [right; by vm_compute|]. split; [exists m; by vm_compute|].
  do 2 (split; [by vm_compute|]).
  split; [intros [v Hv]; vm_compute in Hv|intros Hs; vm_compute in Hs]; discriminate.
Qed.

Lemma success_dict_well_shaped book_name page_number m p :
  well_shaped book_name page_number
    (dict [("status", VStr "success"); ("message", VStr m); ("image", VPart p);
           ("book_name", VStr book_name); ("page_number", VInt page_number)]).
Proof.
  split; [left; by vm_compute|]. split; [exists m; by vm_compute|].
  do 2 (split; [by vm_compute|]).
  split; [intros _; by vm_compute|]. intros _. exists (VPart p). by vm_compute.
Qed.

Lemma resolver_result_well_shaped book_name page_number d :
  resolver_result book_name page_number d → well_shaped book_name page_number d.
Proof.
  destruct 1 as [books|range| |use_gcs image_bytes|e];
    [apply error_dict_well_shaped ..|apply success_dict_well_shaped|apply error_dict_well_shaped].
Qed.

(** ** Strings: prefixes and the first piece of a split *)

Lemma app_cons a s1 s2 : String a s1 +:+ s2 = String a (s1 +:+ s2).
Proof. reflexivity. Qed.

Lemma app_nil_l s : "" +:+ s = s.
Proof. reflexivity. Qed.

Lemma app_assoc' s1 s2 s3 : (s1 +:+ s2) +:+ s3 = s1 +:+ (s2 +:+ s3).
Proof. induction s1 as [|a s1 IH]; [done|]. by rewrite !app_cons, IH. Qed.

Lemma prefix_cons a p b s :
  String.prefix (String a p) (String b s) = true ↔ a = b ∧ String.prefix p s = true.
Proof.
  simpl. destruct (ascii_dec a b) as [->|Hne]; [tauto|].
  split; [done|]. by intros [? _].
Qed.

Lemma prefix_spec p s : String.prefix p s = true ↔ ∃ r, s = p +:+ r.
Proof.
  revert s. induction p as [|a p IH]; intros s.
  - destruct s; simpl; split; eauto.
  - destruct s as [|b s].
    + simpl. split; [done|]. intros [r Hr]. by rewrite app_cons in Hr.
    + rewrite prefix_cons, IH. split.
      * intros [-> [r ->]]. by exists r.
      * intros [r Hr]. rewrite app_cons in Hr. injection Hr as -> ->. eauto.
Qed.

Lemma startswith_app p r : PyStr.startswith (p +:+ r) p = true.
Proof. apply prefix_spec. by exists r. Qed.

Lemma startswith_weaken k p q :
  PyStr.startswith k (p +:+ q) = true → PyStr.startswith k p = true.
Proof.
  unfold PyStr.startswith. rewrite !prefix_spec. intros [r ->].
  exists (q +:+ r). apply app_assoc'.
Qed.

Lemma blob_path_startswith book_name page_number :
  PyStr.startswith (blob_path book_name page_number) (book_name +:+ "/") = true.
Proof.
  unfold blob_path. rewrite <- app_assoc'. apply startswith_app.
Qed.

(** ** The fault-free bucket *)

Lemma elem_of_bucket_names (b : Bucket) k : k ∈ bucket_names b ↔ is_Some (b !! k).
Proof.
  unfold bucket_names. rewrite list_elem_of_fmap. split.
  - intros [[k' v] [-> Hin]]. apply elem_of_map_to_list in Hin. by exists v.
  - intros [v Hv]. exists (k, v). split; [done|]. by apply elem_of_map_to_list.
Qed.

Lemma elem_of_bucket_list_prefix (b : Bucket) p k :
  k ∈ bucket_list b (Some p) None ↔ is_Some (b !! k) ∧ PyStr.startswith k p = true.
Proof.
  unfold bucket_list. rewrite list_elem_of_filter, elem_of_bucket_names. tauto.
Qed.

Lemma bucket_list_prefix_nil (b : Bucket) p m :
  (∀ k, is_Some (b !! k) → PyStr.startswith k p = false) →
  bucket_list b (Some p) m = [].
Proof.
  intros Hno. unfold bucket_list.
  assert (filter (λ k, PyStr.startswith k p = true) (bucket_names b) = []) as ->.
  { apply elem_of_nil_inv. intros k [Hp Hk]%list_elem_of_filter.
    apply elem_of_bucket_names, Hno in Hk. congruence. }
  by destruct m as [[|n]|].
Qed.

(** ** The first segment of an object name *)

Lemma prefix_nil s : String.prefix "" s = true.
Proof. by destruct s. Qed.

Lemma app_nil_r' s : s +:+ "" = s.
Proof. induction s as [|a s IH]; [done|]. by rewrite app_cons, IH. Qed.

Lemma rev_app_app s acc : String.rev_app s acc = String.rev s +:+ acc.
Proof.
  revert acc. induction s as [|a s IH]; intros acc; [done|].
  unfold String.rev. simpl. by rewrite IH, (IH (String a "")), app_assoc'.
Qed.

Lemma rev_cons a s : String.rev (String a s) = String.rev s +:+ String a "".
Proof. unfold String.rev at 1. simpl. apply rev_app_app. Qed.

Lemma prefix_slash c s :
  String.prefix "/" (String c s) = Ascii.eqb c "/".
Proof.
  change (String.prefix "/" (String c s))
    with (if ascii_dec "/" c then String.prefix "" s else false).
  destruct (ascii_dec "/" c) as [<-|Hne]; [apply prefix_nil|].
  symmetry. apply Ascii.eqb_neq. congruence.
Qed.

Lemma head_split_go_slash cur s :
  head (PyStr.split_go "/" 0 cur s) = Some (String.rev cur +:+ until_slash s).
Proof.
  revert cur. induction s as [|c s IH]; intros cur.
  - simpl. by rewrite app_nil_r'.
  - cbn [PyStr.split_go until_slash]. rewrite prefix_slash.
    destruct (Ascii.eqb c "/"); simpl.
    + by rewrite app_nil_r'.
    + by rewrite IH, rev_cons, app_assoc'.
Qed.

Lemma contains_slash_cons c s :
  PyStr.contains "/" (String c s) = Ascii.eqb c "/" || PyStr.contains "/" s.
Proof. cbn [PyStr.contains]. by rewrite prefix_slash. Qed.

Lemma until_slash_no_slash s : PyStr.contains "/" (until_slash s) = false.
Proof.
  induction s as [|c s IH]; [done|]. simpl.
  destruct (Ascii.eqb c "/") eqn:E; [done|]. by rewrite contains_slash_cons, E, IH.
Qed.

Lemma contains_slash_split s :
  PyStr.contains "/" s = true → ∃ rest, s = until_slash s +:+ "/" +:+ rest.
Proof.
  induction s as [|c s IH]; [done|]. rewrite contains_slash_cons. simpl.
  destruct (Ascii.eqb c "/") eqn:E.
  - apply Ascii.eqb_eq in E as ->. by exists s.
  - simpl. intros [rest Hrest]%IH. exists rest. by rewrite app_cons, <- Hrest.
Qed.

Lemma until_slash_app p rest :
  PyStr.contains "/" p = false →
  until_slash (p +:+ "/" +:+ rest) = p ∧ PyStr.contains "/" (p +:+ "/" +:+ rest) = true.
Proof.
  induction p as [|c p IH]; [by destruct rest|].
  rewrite contains_slash_cons, app_cons, contains_slash_cons. simpl.
  destruct (Ascii.eqb c "/"); [done|]. simpl. intros [-> ->]%IH.
  done.
Qed.

Lemma top_prefix_spec name p :
  top_prefix name = Some p ↔
  ∃ rest, name = p +:+ "/" +:+ rest ∧ PyStr.contains "/" p = false.
Proof.
  unfold top_prefix, PyStr.split. split.
  - destruct (PyStr.contains "/" name) eqn:E; [|done].
    rewrite head_split_go_slash, app_nil_l. intros [= <-].
    destruct (contains_slash_split _ E) as [rest Hrest].
    exists rest. split; [done|]. apply until_slash_no_slash.
  - intros (rest & -> & Hp). destruct (until_slash_app p rest Hp) as [Hu ->].
    by rewrite head_split_go_slash, app_nil_l, Hu.
Qed.

Lemma elem_of_prefixes_of names p :
  p ∈ prefixes_of names ↔ ∃ name, name ∈ names ∧ top_prefix name = Some p.
Proof.
  unfold prefixes_of.
  cut (∀ acc : gset string,
         p ∈ foldl (λ prefixes name,
                      match top_prefix name with
                      | Some q => prefixes ∪ {[ q ]}
                      | None => prefixes
                      end) acc names
         ↔ p ∈ acc ∨ ∃ name, name ∈ names ∧ top_prefix name = Some p).
  { intros H. rewrite H. set_solver. }
  induction names as [|name names IH]; intros acc; simpl.
  - set_solver.
  - rewrite IH. destruct (top_prefix name) as [q|] eqn:E; set_solver.
Qed.

Lemma elem_of_sorted_strings (s : gset string) p : p ∈ sorted_strings s ↔ p ∈ s.
Proof. unfold sorted_strings. by rewrite merge_sort_Permutation, elem_of_elements. Qed.

Lemma sorted_strings_sorted (s : gset string) : Sorted String.le (sorted_strings s).
Proof. apply (Sorted_merge_sort String.le). Qed.

Lemma sorted_strings_NoDup (s : gset string) : NoDup (sorted_strings s).
Proof. unfold sorted_strings. rewrite merge_sort_Permutation. apply NoDup_elements. Qed.

(** ** Decimal texts *)

Lemma all_digits_string_of_uint d : all_digits (NilEmpty.string_of_uint d) = true.
Proof. induction d; simpl; try done. Qed.

Lemma digits_go_digit c k acc after s :
  PyStr.digit c = Some k →
  PyStr.digits_go acc after (String c s) = PyStr.digits_go (10 * acc + k) true s.
Proof. intros H. cbn [PyStr.digits_go]. by rewrite H. Qed.

Lemma digits_go_string_of_uint d acc after :
  PyStr.digits_go acc after (NilEmpty.string_of_uint d) =
    match d with
    | Decimal.Nil => if after then Some acc else None
    | _ => Some (uint_value acc d)
    end.
Proof.
  revert acc after. induction d as [|d IH|d IH|d IH|d IH|d IH|d IH|d IH|d IH|d IH|d IH];
    intros acc after; [done|..];
    cbn [NilEmpty.string_of_uint uint_value];
    (erewrite digits_go_digit by (vm_compute; reflexivity));
    rewrite IH; by destruct d.
Qed.

Lemma uint_value_of_lu d d' :
  uint_value (Z.of_N (Unsigned.of_lu d')) d = Z.of_N (Unsigned.of_lu (Decimal.revapp d d')).
Proof.
  revert d'. induction d as [|d IH|d IH|d IH|d IH|d IH|d IH|d IH|d IH|d IH|d IH];
    intros d'; [done|..]; cbn [uint_value Decimal.revapp]; rewrite <- IH; f_equal;
    rewrite (Unsigned.of_lu_eqn (_ d')); cbn [Unsigned.hd Unsigned.tl]; lia.
Qed.

Lemma uint_value_to_uint p : uint_value 0 (Pos.to_uint p) = Z.pos p.
Proof.
  change 0 with (Z.of_N (Unsigned.of_lu Decimal.Nil)).
  rewrite uint_value_of_lu. change (Decimal.revapp ?d Decimal.Nil) with (Decimal.rev d).
  by rewrite <- Unsigned.of_uint_alt, Unsigned.of_to.
Qed.

Lemma digit_not_space c : is_Some (PyStr.digit c) → PyStr.is_space c = false.
Proof.
  unfold PyStr.digit, PyStr.is_space. generalize (nat_of_ascii c). intros n [k Hk].
  destruct ((48 <=? n)%nat && (n <=? 57)%nat) eqn:E; [|done].
  apply andb_true_iff in E as [E1%Nat.leb_le E2%Nat.leb_le].
  rewrite (proj2 (Nat.leb_gt n 13)), (proj2 (Nat.eqb_neq n 32)) by lia.
  by rewrite andb_false_r.
Qed.

Lemma all_digits_no_spaces s : all_digits s = true → no_spaces s = true.
Proof.
  induction s as [|c s IH]; [done|]. simpl.
  intros [Hc%bool_decide_eq_true Hs]%andb_true_iff.
  by rewrite (digit_not_space c Hc), IH.
Qed.

Lemma lstrip_no_spaces s : no_spaces s = true → PyStr.lstrip s = s.
Proof.
  destruct s as [|c s]; [done|]. simpl.
  intros [Hc%negb_true_iff _]%andb_true_iff. by rewrite Hc.
Qed.

Lemma no_spaces_rev_app s acc :
  no_spaces (String.rev_app s acc) = no_spaces s && no_spaces acc.
Proof.
  revert acc. induction s as [|c s IH]; intros acc; [done|]. simpl.
  rewrite IH. simpl. destruct (PyStr.is_space c), (no_spaces s); simpl; done.
Qed.

Lemma rev_app_rev_app s a b :
  String.rev_app (String.rev_app s a) b = String.rev_app a (s +:+ b).
Proof. revert a b. induction s as [|c s IH]; intros a b; [done|]. simpl. by rewrite IH. Qed.

Lemma rev_involutive s : String.rev (String.rev s) = s.
Proof. unfold String.rev. by rewrite rev_app_rev_app, app_nil_r'. Qed.

Lemma strip_no_spaces s : no_spaces s = true → PyStr.strip s = s.
Proof.
  intros Hs. unfold PyStr.strip. rewrite (lstrip_no_spaces s Hs).
  rewrite lstrip_no_spaces; [apply rev_involutive|].
  unfold String.rev. by rewrite no_spaces_rev_app, Hs.
Qed.

(** The transformation to ASCII leaves ASCII text as it is. *)
Lemma to_ascii_go_ascii c s :
  (N_of_ascii c <? 127)%N = true →
  PyStr.to_ascii_go 0 0 (String c s) = String c (PyStr.to_ascii_go 0 0 s).
Proof. intros H. cbn [PyStr.to_ascii_go]. by rewrite H. Qed.

Lemma to_ascii_string_of_uint d :
  PyStr.to_ascii (NilEmpty.string_of_uint d) = NilEmpty.string_of_uint d.
Proof.
  unfold PyStr.to_ascii. induction d; [done|..];
    cbn [NilEmpty.string_of_uint];
    (rewrite to_ascii_go_ascii by (vm_compute; reflexivity)); by rewrite IHd.
Qed.

Lemma to_ascii_minus s : PyStr.to_ascii (String "-" s) = String "-" (PyStr.to_ascii s).
Proof. unfold PyStr.to_ascii. by rewrite to_ascii_go_ascii by (vm_compute; reflexivity). Qed.

Lemma int_string_of_uint d :
  d ≠ Decimal.Nil →
  PyStr.int (NilEmpty.string_of_uint d) = Some (uint_value 0 d)
  ∧ PyStr.int (String "-" (NilEmpty.string_of_uint d)) = Some (- uint_value 0 d).
Proof.
  intros Hd. unfold PyStr.int. rewrite to_ascii_minus, to_ascii_string_of_uint.
  unfold PyStr.long_from_string. split.
  - rewrite strip_no_spaces by apply all_digits_no_spaces, all_digits_string_of_uint.
    destruct d; [done|..];
      match goal with
      | |- _ = Some (uint_value 0 ?x) => exact (digits_go_string_of_uint x 0 false)
      end.
  - rewrite strip_no_spaces.
    2:{ simpl. apply all_digits_no_spaces, all_digits_string_of_uint. }
    rewrite digits_go_string_of_uint. by destruct d.
Qed.

Lemma int_str n : PyStr.int (PyStr.str n) = Some n.
Proof.
  unfold PyStr.str. destruct n as [|p|p]; [done|..]; simpl;
    unfold NilZero.string_of_uint;
    destruct (Pos.to_uint p) eqn:E; try (by apply Unsigned.to_uint_nonnil in E);
    rewrite <- E;
    destruct (int_string_of_uint (Pos.to_uint p) (Unsigned.to_uint_nonnil p)) as [H1 H2];
    rewrite ?H1, ?H2, uint_value_to_uint; done.
Qed.

(** ** Splitting the name of a stored page *)

Lemma split_go_skip sep s1 y cur :
  PyStr.split_go sep (String.length s1) cur (s1 +:+ y) = PyStr.split_go sep 0 cur y.
Proof. induction s1 as [|c s1 IH]; [done|]. by rewrite app_cons. Qed.

Lemma split_go_match sep y cur :
  sep ≠ "" →
  PyStr.split_go sep 0 cur (sep +:+ y) = String.rev cur :: PyStr.split_go sep 0 "" y.
Proof.
  destruct sep as [|a sep]; [done|intros _].
  rewrite app_cons. cbn [PyStr.split_go]. rewrite <- app_cons.
  rewrite (proj2 (prefix_spec _ _)) by eauto.
  cbn [Nat.pred String.length]. by rewrite split_go_skip.
Qed.

Lemma split_go_pass sep c s cur :
  String.prefix sep (String c s) = false →
  PyStr.split_go sep 0 cur (String c s) = PyStr.split_go sep 0 (String c cur) s.
Proof. intros H. cbn [PyStr.split_go]. by rewrite H. Qed.

Lemma split_go_no_match sep s cur :
  PyStr.contains sep s = false →
  PyStr.split_go sep 0 cur s = [String.rev cur +:+ s].
Proof.
  revert cur. induction s as [|c s IH]; intros cur.
  - intros _. simpl. by rewrite app_nil_r'.
  - cbn [PyStr.contains]. intros [Hp Hs]%orb_false_iff.
    by rewrite split_go_pass, IH, rev_cons, app_assoc'.
Qed.

Lemma split_go_lacks a sep x y cur :
  lacks a x = true →
  PyStr.split_go (String a sep) 0 cur (x +:+ String a sep +:+ y) =
    (String.rev cur +:+ x) :: PyStr.split_go (String a sep) 0 "" y.
Proof.
  revert cur. induction x as [|c x IH]; intros cur Hx.
  - rewrite app_nil_l, app_nil_r'. by apply split_go_match.
  - simpl in Hx. apply andb_true_iff in Hx as [Hc%negb_true_iff%Ascii.eqb_neq Hx].
    rewrite app_cons, split_go_pass, IH, rev_cons, app_assoc' by
      (try done; apply not_true_is_false; intros [? _]%prefix_cons; congruence).
    done.
Qed.

Lemma contains_lacks a sep s1 s2 :
  lacks a s1 = true →
  PyStr.contains (String a sep) (s1 +:+ s2) = PyStr.contains (String a sep) s2.
Proof.
  induction s1 as [|c s1 IH]; [done|]. cbn [lacks].
  intros [Hc%negb_true_iff%Ascii.eqb_neq Hs]%andb_true_iff.
  rewrite app_cons. cbn [PyStr.contains]. rewrite IH by done.
  assert (String.prefix (String a sep) (String c (s1 +:+ s2)) = false) as ->; [|done].
  apply not_true_is_false. intros [? _]%prefix_cons. congruence.
Qed.

(** A pattern without a slash that starts a text starts its part before
    the first slash. *)
Lemma prefix_before_slash sep x y :
  PyStr.contains "/" sep = false →
  String.prefix sep (x +:+ "/" +:+ y) = true → String.prefix sep x = true.
Proof.
  revert x. induction sep as [|a sep IH]; intros x Hsep; [intros _; apply prefix_nil|].
  rewrite contains_slash_cons in Hsep.
  apply orb_false_iff in Hsep as [Ha%Ascii.eqb_neq Hsep].
  destruct x as [|c x].
  - rewrite app_nil_l, app_cons. by intros [? _]%prefix_cons.
  - rewrite app_cons, !prefix_cons. intros [-> H]. split; [done|]. by apply IH.
Qed.

Lemma split_go_book book_name tail cur :
  PyStr.contains "page_" book_name = false →
  PyStr.split_go "page_" 0 cur (book_name +:+ "/page_" +:+ tail) =
    (String.rev cur +:+ book_name +:+ "/") :: PyStr.split_go "page_" 0 "" tail.
Proof.
  revert cur. induction book_name as [|c book_name IH]; intros cur.
  - intros _. rewrite app_nil_l.
    change ("/page_" +:+ tail) with (String "/" ("page_" +:+ tail)).
    rewrite split_go_pass by done. by rewrite split_go_match, rev_cons.
  - cbn [PyStr.contains]. intros [Hp Hs]%orb_false_iff.
    rewrite app_cons, split_go_pass.
    + by rewrite IH, rev_cons, !app_assoc'.
    + rewrite <- app_cons. apply not_true_is_false.
      change ("/page_" +:+ tail) with ("/" +:+ "page_" +:+ tail).
      intros H. apply prefix_before_slash in H; [congruence|done].
Qed.

Lemma lacks_all_digits a s :
  PyStr.digit a = None → all_digits s = true → lacks a s = true.
Proof.
  intros Ha. induction s as [|c s IH]; [done|]. simpl.
  intros [[k Hc]%bool_decide_eq_true Hs]%andb_true_iff. rewrite IH by done.
  destruct (Ascii.eqb_spec c a) as [->|]; [congruence|done].
Qed.

Lemma all_digits_str_uint d : all_digits (NilZero.string_of_uint d) = true.
Proof. destruct d; try done; apply (all_digits_string_of_uint (_ d)). Qed.

Lemma lacks_str a n :
  PyStr.digit a = None → a ≠ "-"%char → lacks a (PyStr.str n) = true.
Proof.
  intros Ha Hm. unfold PyStr.str.
  destruct n as [|p|p]; cbn [Z.to_int NilZero.string_of_int].
  - by apply lacks_all_digits.
  - apply lacks_all_digits, all_digits_str_uint; done.
  - cbn [lacks]. rewrite lacks_all_digits by (done || apply all_digits_str_uint).
    destruct (Ascii.eqb_spec "-" a) as [<-|]; done.
Qed.

Lemma rev_app_append x p acc :
  String.rev_app (x +:+ p) acc = String.rev_app p (String.rev_app x acc).
Proof. revert acc. induction x as [|c x IH]; intros acc; [done|]. rewrite app_cons. apply IH. Qed.

Lemma endswith_app x p : PyStr.endswith (x +:+ p) p = true.
Proof.
  unfold PyStr.endswith. apply prefix_spec. exists (String.rev x).
  unfold String.rev at 1. rewrite rev_app_append. apply rev_app_app.
Qed.

(** The name under which a page is stored gives back its number, for a
    book whose name does not contain "page_". *)
Lemma parse_page_blob_path book_name page_number :
  PyStr.contains "page_" book_name = false →
  parse_page (blob_path book_name page_number) = Some page_number.
Proof.
  intros Hbook. unfold parse_page, blob_path, page_filename.
  assert (book_name +:+ "/" +:+ "page_" +:+ PyStr.str page_number +:+ ".png"
          = (book_name +:+ "/page_" +:+ PyStr.str page_number) +:+ ".png") as E
    by (by rewrite !app_assoc').
  rewrite E at 1. rewrite endswith_app.
  change (book_name +:+ "/" +:+ "page_" +:+ PyStr.str page_number +:+ ".png")
    with (book_name +:+ "/page_" +:+ (PyStr.str page_number +:+ ".png")).
  unfold PyStr.split. rewrite split_go_book by done.
  rewrite split_go_no_match.
  2:{ rewrite contains_lacks; [done|]. by apply lacks_str. }
  simpl. unfold PyStr.replace, PyStr.split.
  change (String.rev "") with "". rewrite app_nil_l.
  change (PyStr.str page_number +:+ ".png")
    with (PyStr.str page_number +:+ ".png" +:+ "").
  rewrite split_go_lacks by (by apply lacks_str).
  simpl. rewrite !app_nil_r'. apply int_str.
Qed.

(** ** Smallest and largest page *)

Lemma py_min_is_min l : l ≠ [] → is_min (py_min l) l.
Proof.
  destruct l as [|x l]; [done|intros _]. unfold py_min.
  induction l as [|y l [IHin IHle]]; simpl.
  - split; [set_solver|]. intros z ?. assert (z = x) by set_solver. lia.
  - split.
    + destruct (Z.min_spec y (foldr Z.min x l)) as [[_ ->]|[_ ->]]; set_solver.
    + intros z Hz. apply elem_of_cons in Hz as [->|Hz].
      * specialize (IHle x). etrans; [apply Z.le_min_r|]. apply IHle. set_solver.
      * apply elem_of_cons in Hz as [->|Hz]; [apply Z.le_min_l|].
        etrans; [apply Z.le_min_r|]. apply IHle. set_solver.
Qed.

Lemma py_max_is_max l : l ≠ [] → is_max (py_max l) l.
Proof.
  destruct l as [|x l]; [done|intros _]. unfold py_max.
  induction l as [|y l [IHin IHle]]; simpl.
  - split; [set_solver|]. intros z ?. assert (z = x) by set_solver. lia.
  - split.
    + destruct (Z.max_spec y (foldr Z.max x l)) as [[_ ->]|[_ ->]]; set_solver.
    + intros z Hz. apply elem_of_cons in Hz as [->|Hz].
      * specialize (IHle x). etrans; [|apply Z.le_max_r]. apply IHle. set_solver.
      * apply elem_of_cons in Hz as [->|Hz]; [apply Z.le_max_l|].
        etrans; [|apply Z.le_max_r]. apply IHle. set_solver.
Qed.

Lemma is_min_unique a a' l l' : l ≡ₚ l' → is_min a l → is_min a' l' → a = a'.
Proof.
  intros Hp [Hin Hle] [Hin' Hle']. apply Z.le_antisymm.
  - apply Hle. by rewrite Hp.
  - apply Hle'. by rewrite <- Hp.
Qed.

Lemma is_max_unique c c' l l' : l ≡ₚ l' → is_max c l → is_max c' l' → c = c'.
Proof.
  intros Hp [Hin Hle] [Hin' Hle']. apply Z.le_antisymm.
  - apply Hle'. by rewrite <- Hp.
  - apply Hle. by rewrite Hp.
Qed.

Lemma page_range_of_sorted pages a c :
  pages ≠ [] → is_min a pages → is_max c pages →
  page_range_of (merge_sort Z.le pages) = PyStr.str a +:+ "-" +:+ PyStr.str c.
Proof.
  intros Hne Hmin Hmax.
  assert (merge_sort Z.le pages ≠ []) as Hne'.
  { intros E. apply Hne, Permutation_nil. by rewrite <- E, merge_sort_Permutation. }
  unfold page_range_of. destruct (merge_sort Z.le pages) as [|x l] eqn:E; [done|].
  rewrite <- E in *.
  by rewrite (is_min_unique _ _ _ _ (merge_sort_Permutation Z.le pages)
                (py_min_is_min _ Hne') Hmin),
             (is_max_unique _ _ _ _ (merge_sort_Permutation Z.le pages)
                (py_max_is_max _ Hne') Hmax).
Qed.

(** ** The page resolver *)

Lemma get_book_page_present gcs http fs book_name page_number image_bytes :
  gcs_client gcs = Ok () →
  gcs_exists gcs (blob_path book_name page_number) = Ok true →
  gcs_download_as_bytes gcs (blob_path book_name page_number) = Ok image_bytes →
  get_book_page gcs http fs book_name page_number =
    Ok (page_success true book_name page_number
          (mkPart None (Some (mkBlob image_bytes "image/png")))).
Proof.
  intros Hc He Hd. unfold get_book_page, get_book_page_mode, USE_GCS, primary_lookup.
  by rewrite Hc, He; simpl; rewrite Hd.
Qed.

(** The failures of the primary store that reach the inner handler. *)
Lemma primary_lookup_raises gcs book_name page_number e :
  gcs_client gcs = Raise e
  ∨ (gcs_client gcs = Ok ()
     ∧ (gcs_exists gcs (blob_path book_name page_number) = Raise e
        ∨ (gcs_exists gcs (blob_path book_name page_number) = Ok true
           ∧ gcs_download_as_bytes gcs (blob_path book_name page_number) = Raise e)
        ∨ (gcs_exists gcs (blob_path book_name page_number) = Ok false
           ∧ gcs_list_blobs gcs (Some (book_name +:+ "/page_")) None = Raise e))) →
  primary_lookup gcs book_name page_number = Raise e.
Proof.
  unfold primary_lookup.
  intros [->|[-> [->|[[-> Hd]|[-> Hl]]]]]; simpl; [done..| |].
  - by rewrite Hd.
  - by rewrite Hl.
Qed.

Lemma get_book_page_fallback gcs http fs book_name page_number gcs_error resp :
  primary_lookup gcs book_name page_number = Raise gcs_error →
  http (public_url book_name page_number) = Ok resp →
  get_book_page gcs http fs book_name page_number =
    Ok (if bool_decide (status_code resp = 200)
        then page_success true book_name page_number
               (mkPart None (Some (mkBlob (content resp) "image/png")))
        else read_error book_name page_number
               ("Failed to fetch from GCS: " +:+ gcs_error)).
Proof.
  intros Hp Hh. unfold get_book_page, get_book_page_mode, USE_GCS, public_fallback.
  rewrite Hp. simpl. rewrite Hh. simpl.
  destruct (decide (status_code resp = 200)) as [E|E].
  - by rewrite (bool_decide_eq_false_2 _ (λ H, H E)), (bool_decide_eq_true_2 _ E).
  - by rewrite (bool_decide_eq_true_2 _ E), (bool_decide_eq_false_2 _ E).
Qed.

Lemma get_book_page_fallback_raises gcs http fs book_name page_number gcs_error e :
  primary_lookup gcs book_name page_number = Raise gcs_error →
  http (public_url book_name page_number) = Raise e →
  get_book_page gcs http fs book_name page_number =
    Ok (read_error book_name page_number e).
Proof.
  intros Hp Hh. unfold get_book_page, get_book_page_mode, USE_GCS, public_fallback.
  rewrite Hp. simpl. by rewrite Hh.
Qed.

(** C9. Every dictionary [get_book_page] returns, in the remote and in the
    local mode and whatever the collaborators do, has the keys [status],
    [message], [book_name] and [page_number]; [book_name] and [page_number]
    are the arguments, [status] is "success" or "error", and the key [image]
    is present exactly when [status] is "success". *)
Theorem get_book_page_result_shape use_gcs gcs http fs book_name page_number :
  ∃ d, get_book_page_mode use_gcs gcs http fs book_name page_number = Ok d
       ∧ (d !! "status" = Some (VStr "success") ∨ d !! "status" = Some (VStr "error"))
       ∧ (∃ m, d !! "message" = Some (VStr m))
       ∧ d !! "book_name" = Some (VStr book_name)
       ∧ d !! "page_number" = Some (VInt page_number)
       ∧ (is_Some (d !! "image") ↔ d !! "status" = Some (VStr "success")).
Proof.
  destruct (get_book_page_mode_result use_gcs gcs http fs book_name page_number)
    as (d & Hd & Hres).
  exists d. split; [done|]. by apply resolver_result_well_shaped.
Qed.

(** [get_book_page] never raises: for every input and every behaviour of
    the store, the HTTP client and the file system it returns a dictionary
    whose status is "success" or "error".  When the primary store fails with
    [gcs_error], the same key is fetched through the public URL; when that
    request is answered, a 200 answer gives success with the fetched bytes,
    and any other status gives the storage error whose message embeds
    [gcs_error]. *)
Theorem get_book_page_total_with_fallback gcs http fs book_name page_number :
  (∃ d, get_book_page gcs http fs book_name page_number = Ok d
        ∧ (d !! "status" = Some (VStr "success") ∨ d !! "status" = Some (VStr "error")))
  ∧ (∀ gcs_error resp,
       primary_lookup gcs book_name page_number = Raise gcs_error →
       http ("https://storage.googleapis.com/bakaloria-ai-assistance-books/"
             +:+ blob_path book_name page_number) = Ok resp →
       get_book_page gcs http fs book_name page_number =
         Ok (if bool_decide (status_code resp = 200)
             then page_success true book_name page_number
                    (mkPart None (Some (mkBlob (content resp) "image/png")))
             else dict [("status", VStr "error");
                        ("message", VStr ("Error reading image file: Failed to fetch from GCS: "
                                          +:+ gcs_error));
                        ("book_name", VStr book_name);
                        ("page_number", VInt page_number)])).
Proof.
  split.
  - destruct (get_book_page_mode_result USE_GCS gcs http fs book_name page_number)
      as (d & Hd & Hres).
    exists d. split; [done|]. by apply resolver_result_well_shaped in Hres as [? _].
  - intros gcs_error resp Hp Hh. by apply get_book_page_fallback.
Qed.

Lemma get_book_page_total_with_fallback_witness :
  get_book_page (gcs_down "503 backend unavailable") (http_status 404 []) fs_empty "math-1" 5
  = Ok (dict [("status", VStr "error");
              ("message", VStr "Error reading image file: Failed to fetch from GCS: 503 backend unavailable");
              ("book_name", VStr "math-1");
              ("page_number", VInt 5)]).
Proof.
  exact (proj2 (get_book_page_total_with_fallback
                  (gcs_down "503 backend unavailable") (http_status 404 []) fs_empty "math-1" 5)
               "503 backend unavailable" (mkResponse 404 []) eq_refl eq_refl).
Defined.

(** C5. The store fails with "503 backend unavailable" and the request to
    the public URL raises "connection refused": the fallback has failed too,
    and the storage error [get_book_page] returns should embed the original
    error.  It does not: the handler of the fallback quotes [gcs_error] only
    in the exception it raises itself for an answer other than 200, and the
    exception of [requests.get] reaches the outer handler as it is, so the
    message is "Error reading image file: connection refused". *)
Theorem fallback_exception_hides_original_error :
  primary_lookup (gcs_down "503 backend unavailable") "math-1" 5
    = Raise "503 backend unavailable"
  ∧ http_down "connection refused" (public_url "math-1" 5) = Raise "connection refused"
  ∧ ∃ d, get_book_page (gcs_down "503 backend unavailable") (http_down "connection refused")
                       fs_empty "math-1" 5 = Ok d
         ∧ d !! "status" = Some (VStr "error")
         ∧ d !! "message" = Some (VStr "Error reading image file: connection refused")
         ∧ PyStr.contains "503 backend unavailable"
                          "Error reading image file: connection refused" = false.
Proof.
  split; [done|]. split; [done|].
  exists (read_error "math-1" 5 "connection refused").
  split; [reflexivity|]. by vm_compute.
Qed.

(** C4. Round trip: when the store holds an object under the key
    "{book_name}/page_{page_number}.png", [get_book_page] returns a success
    dictionary whose image is the inline payload made of exactly the stored
    bytes and the MIME type "image/png", together with the requested book
    name and page number. *)
Theorem get_book_page_round_trip (b : Bucket) http fs book_name page_number stored :
  b !! (book_name +:+ "/page_" +:+ PyStr.str page_number +:+ ".png") = Some stored →
  ∃ d, get_book_page (bucket_gcs b) http fs book_name page_number = Ok d
       ∧ d !! "status" = Some (VStr "success")
       ∧ d !! "image" = Some (VPart (mkPart None (Some (mkBlob stored "image/png"))))
       ∧ d !! "book_name" = Some (VStr book_name)
       ∧ d !! "page_number" = Some (VInt page_number).
Proof.
  intros Hk.
  change (book_name +:+ "/page_" +:+ PyStr.str page_number +:+ ".png")
    with (blob_path book_name page_number) in Hk.
  eexists. split.
  - apply get_book_page_present; simpl; [done| |by rewrite Hk].
    by rewrite bool_decide_eq_true_2.
  - by vm_compute.
Qed.

Lemma get_book_page_round_trip_witness :
  ∃ d, get_book_page (bucket_gcs bucket_one_page) (http_down "offline") fs_empty "math-1" 5 = Ok d
       ∧ d !! "status" = Some (VStr "success")
       ∧ d !! "image" = Some (VPart (mkPart None (Some (mkBlob [x89; x50; x4e; x47] "image/png"))))
       ∧ d !! "book_name" = Some (VStr "math-1")
       ∧ d !! "page_number" = Some (VInt 5).
Proof.
  apply (get_book_page_round_trip bucket_one_page (http_down "offline") fs_empty "math-1" 5).
  by vm_compute.
Defined.

Lemma top_level_prefix_spec (b : Bucket) p :
  top_level_prefix b p ↔ ∃ name, name ∈ bucket_names b ∧ top_prefix name = Some p.
Proof.
  unfold top_level_prefix. split.
  - intros (Hp & rest & Hk). exists (p +:+ "/" +:+ rest).
    split; [by apply elem_of_bucket_names|]. apply top_prefix_spec. eauto.
  - intros (name & Hin & (rest & -> & Hp)%top_prefix_spec).
    split; [done|]. exists rest. by apply elem_of_bucket_names.
Qed.

(** C3 (amended). When the store holds no object at all under the prefix
    "{book_name}/", [get_book_page] returns, for every page number, the
    "book not found" error naming the requested book; the books it lists are
    sorted, without repetition, and are exactly the top-level prefixes of
    the store. *)
Theorem get_book_page_book_not_found (b : Bucket) http fs book_name page_number :
  (∀ k, is_Some (b !! k) → PyStr.startswith k (book_name +:+ "/") = false) →
  ∃ available_books,
    get_book_page (bucket_gcs b) http fs book_name page_number =
      Ok (dict [("status", VStr "error");
                ("message", VStr ("Book '" +:+ book_name +:+ "' not found. Available books: "
                                  +:+ PyStr.join ", " available_books));
                ("book_name", VStr book_name);
                ("page_number", VInt page_number)])
    ∧ Sorted String.le available_books
    ∧ NoDup available_books
    ∧ ∀ p, p ∈ available_books ↔ top_level_prefix b p.
Proof.
  intros Hno. exists (sorted_strings (prefixes_of (bucket_names b))).
  split; [|split; [apply sorted_strings_sorted|split; [apply sorted_strings_NoDup|]]].
  - unfold get_book_page, get_book_page_mode, USE_GCS, primary_lookup. simpl.
    rewrite bool_decide_eq_false_2.
    2:{ intros Hk%Hno. by rewrite blob_path_startswith in Hk. }
    simpl. rewrite (bucket_list_prefix_nil b (book_name +:+ "/page_") None).
    2:{ intros k Hk%Hno. destruct (PyStr.startswith k (book_name +:+ "/page_")) eqn:E; [|done].
        change (book_name +:+ "/page_") with (book_name +:+ "/" +:+ "page_") in E.
        rewrite <- app_assoc' in E. apply startswith_weaken in E. congruence. }
    simpl. by rewrite (bucket_list_prefix_nil b (book_name +:+ "/") (Some 1%nat) Hno).
  - intros p. by rewrite elem_of_sorted_strings, elem_of_prefixes_of, top_level_prefix_spec.
Qed.

Lemma get_book_page_book_not_found_witness :
  ∃ available_books,
    get_book_page (bucket_gcs bucket_two_books) (http_down "offline") fs_empty "physics" 3 =
      Ok (dict [("status", VStr "error");
                ("message", VStr ("Book 'physics' not found. Available books: "
                                  +:+ PyStr.join ", " available_books));
                ("book_name", VStr "physics");
                ("page_number", VInt 3)])
    ∧ Sorted String.le available_books
    ∧ NoDup available_books
    ∧ ∀ p, p ∈ available_books ↔ top_level_prefix bucket_two_books p.
Proof.
  apply (get_book_page_book_not_found bucket_two_books (http_down "offline") fs_empty "physics" 3).
  intros k Hk%elem_of_bucket_names. vm_compute in Hk.
  repeat (apply elem_of_cons in Hk as [->|Hk]; [by vm_compute|]).
  by apply elem_of_nil in Hk.
Defined.

Example book_not_found_message :
  get_book_page (bucket_gcs bucket_two_books) (http_down "offline") fs_empty "physics" 3 =
    Ok (dict [("status", VStr "error");
              ("message", VStr "Book 'physics' not found. Available books: math-1, math-2");
              ("book_name", VStr "physics");
              ("page_number", VInt 3)]).
Proof. vm_compute. reflexivity. Qed.

(** C3 as stated fails for a book that has objects but no page: the guard
    on the listing under "{book_name}/" sends it to the "page not found"
    answer with the range "none". *)
Lemma book_without_pages_is_not_reported_missing :
  (∀ k, is_Some (bucket_cover_only !! k) →
        ¬ ∃ n : Z, k = "b" +:+ "/page_" +:+ PyStr.str n +:+ ".png")
  ∧ ∃ d, get_book_page (bucket_gcs bucket_cover_only) (http_down "offline") fs_empty "b" 1 = Ok d
         ∧ d !! "status" = Some (VStr "error")
         ∧ d !! "message" = Some (VStr "Page 1 not found in book 'b'. Available pages: none").
Proof.
  split.
  - intros k [v Hk] [n Hn]. unfold bucket_cover_only in Hk.
    apply lookup_singleton_Some in Hk as [<- _]. discriminate Hn.
  - exists (page_not_found "b" 1 "none"). split; [vm_compute; reflexivity|].
    split; vm_compute; reflexivity.
Qed.

Lemma parsed_page_spec (b : Bucket) book_name x :
  parsed_page b book_name x ↔
  x ∈ available_pages_of (bucket_list b (Some (book_name +:+ "/page_")) None).
Proof.
  unfold parsed_page, available_pages_of. rewrite list_elem_of_omap.
  split; intros (k & H); exists k; rewrite elem_of_bucket_list_prefix in *; tauto.
Qed.

Lemma parse_page_unparsed name :
  (PyStr.endswith name ".png" = false
   ∨ PyStr.split name "page_" !! 1%nat = None
   ∨ ∃ piece, PyStr.split name "page_" !! 1%nat = Some piece
              ∧ PyStr.int (PyStr.replace piece ".png" "") = None)
  ↔ parse_page name = None.
Proof.
  unfold parse_page. destruct (PyStr.endswith name ".png"); [|by split; auto].
  destruct (PyStr.split name "page_" !! 1%nat) as [piece|]; simpl.
  - split.
    + intros [?|[?|(piece' & [= <-] & ?)]]; done.
    + intros ?. right; right. by exists piece.
  - split; auto.
Qed.

(** In a book whose name does not contain "page_", every page stored under
    the name built by the resolver is among the numbers it reads. *)
Lemma stored_page_parsed (b : Bucket) book_name m :
  PyStr.contains "page_" book_name = false →
  is_Some (b !! (book_name +:+ "/page_" +:+ PyStr.str m +:+ ".png")) →
  parsed_page b book_name m.
Proof.
  intros Hbook Hm. exists (book_name +:+ "/page_" +:+ PyStr.str m +:+ ".png").
  split; [done|]. split.
  - rewrite <- app_assoc'. apply startswith_app.
  - by apply (parse_page_blob_path book_name m).
Qed.

(** When the requested object is absent and the resolver reads at least
    one page number off the store for the book, with smallest number [a] and
    largest number [c], it returns the "page not found" error reporting the
    requested page and the range "a-c", also when the requested page lies
    between [a] and [c].  The numbers taken into account are those of the
    listed names that parse: an object whose name does not parse can be
    removed without changing them.  For a book whose name does not contain
    "page_", every stored page lies in the reported range. *)
Theorem get_book_page_page_not_found (b : Bucket) http fs book_name page_number a c :
  b !! (book_name +:+ "/page_" +:+ PyStr.str page_number +:+ ".png") = None →
  parsed_page b book_name a → (∀ x, parsed_page b book_name x → a ≤ x) →
  parsed_page b book_name c → (∀ x, parsed_page b book_name x → x ≤ c) →
  get_book_page (bucket_gcs b) http fs book_name page_number =
    Ok (dict [("status", VStr "error");
              ("message", VStr ("Page " +:+ PyStr.str page_number +:+ " not found in book '"
                                +:+ book_name +:+ "'. Available pages: "
                                +:+ PyStr.str a +:+ "-" +:+ PyStr.str c));
              ("book_name", VStr book_name);
              ("page_number", VInt page_number)])
  ∧ (∀ k, is_Some (b !! k) → parse_page k = None → ∀ x,
       parsed_page (delete k b) book_name x ↔ parsed_page b book_name x)
  ∧ (PyStr.contains "page_" book_name = false →
     ∀ m, is_Some (b !! (book_name +:+ "/page_" +:+ PyStr.str m +:+ ".png")) → a ≤ m ≤ c).
Proof.
  intros Hk Ha Hale Hc Hcle. split; [|split].
  - change (book_name +:+ "/page_" +:+ PyStr.str page_number +:+ ".png")
      with (blob_path book_name page_number) in Hk.
    unfold get_book_page, get_book_page_mode, USE_GCS, primary_lookup. simpl.
    rewrite bool_decide_eq_false_2 by (rewrite Hk; by intros [? ?]). simpl.
    set (pages := available_pages_of _).
    assert (is_min a pages) as Hmin.
    { split; [by apply parsed_page_spec|]. intros x Hx. by apply Hale, parsed_page_spec. }
    assert (is_max c pages) as Hmax.
    { split; [by apply parsed_page_spec|]. intros x Hx. by apply Hcle, parsed_page_spec. }
    assert (pages ≠ []) as Hne.
    { intros E. destruct Hmin as [Hin _]. rewrite E in Hin. by apply elem_of_nil in Hin. }
    rewrite <- (page_range_of_sorted pages a c Hne Hmin Hmax).
    by destruct pages.
  - intros k Hin Hnone x. unfold parsed_page. split.
    + intros (k' & [v Hv] & Hs & Hp). exists k'. split; [|done].
      apply lookup_delete_Some in Hv as [_ Hv]. by exists v.
    + intros (k' & [v Hv] & Hs & Hp). exists k'. split; [|done].
      exists v. apply lookup_delete_Some. split; [|done]. congruence.
  - intros Hbook m Hm. by split; [apply Hale|apply Hcle]; apply stored_page_parsed.
Qed.

Lemma bucket_with_gap_pages x : parsed_page bucket_with_gap "m" x ↔ x = 1 ∨ x = 3.
Proof.
  rewrite parsed_page_spec.
  assert (available_pages_of (bucket_list bucket_with_gap (Some ("m" +:+ "/page_")) None)
          = [3; 1]) as -> by (vm_compute; reflexivity).
  set_solver.
Qed.

Lemma get_book_page_page_not_found_witness :
  get_book_page (bucket_gcs bucket_with_gap) (http_down "offline") fs_empty "m" 2 =
    Ok (dict [("status", VStr "error");
              ("message", VStr "Page 2 not found in book 'm'. Available pages: 1-3");
              ("book_name", VStr "m");
              ("page_number", VInt 2)])
  ∧ (∀ k, is_Some (bucket_with_gap !! k) → parse_page k = None → ∀ x,
       parsed_page (delete k bucket_with_gap) "m" x ↔ parsed_page bucket_with_gap "m" x)
  ∧ (PyStr.contains "page_" "m" = false →
     ∀ m, is_Some (bucket_with_gap !! ("m" +:+ "/page_" +:+ PyStr.str m +:+ ".png")) →
          1 ≤ m ≤ 3).
Proof.
  apply (get_book_page_page_not_found bucket_with_gap (http_down "offline") fs_empty "m" 2 1 3).
  - vm_compute. reflexivity.
  - apply bucket_with_gap_pages. by left.
  - intros x [->| ->]%bucket_with_gap_pages; lia.
  - apply bucket_with_gap_pages. by right.
  - intros x [->| ->]%bucket_with_gap_pages; lia.
Defined.

(** A page number written with digits outside ASCII is read as [int] reads
    it, and a name with a separator of bytes 28 to 31 before the number is
    skipped. *)
Example get_book_page_unicode_page_names :
  get_book_page (bucket_gcs {[ "m/page_1.png" := [x01]; "m/page_٣.png" := [x03] ]})
                (http_down "offline") fs_empty "m" 2 =
    Ok (dict [("status", VStr "error");
              ("message", VStr "Page 2 not found in book 'm'. Available pages: 1-3");
              ("book_name", VStr "m");
              ("page_number", VInt 2)])
  ∧ get_book_page (bucket_gcs {[ "m/page_٣.png" := [x03] ]})
                  (http_down "offline") fs_empty "m" 2 =
      Ok (dict [("status", VStr "error");
                ("message", VStr "Page 2 not found in book 'm'. Available pages: 3-3");
                ("book_name", VStr "m");
                ("page_number", VInt 2)])
  ∧ get_book_page
      (bucket_gcs {[ "m/page_1.png" := [x01];
                     "m/page_" +:+ String "028" "5.png" := [x05] ]})
      (http_down "offline") fs_empty "m" 2 =
      Ok (dict [("status", VStr "error");
                ("message", VStr "Page 2 not found in book 'm'. Available pages: 1-1");
                ("book_name", VStr "m");
                ("page_number", VInt 2)]).
Proof. repeat split; vm_compute; reflexivity. Qed.

Lemma rev_append s t : String.rev (s +:+ t) = String.rev t +:+ String.rev s.
Proof. unfold String.rev at 1. rewrite rev_app_append. apply rev_app_app. Qed.

Lemma app_inj_r s1 s2 t : s1 +:+ t = s2 +:+ t → s1 = s2.
Proof.
  intros E. apply (f_equal String.rev) in E. rewrite !rev_append in E.
  apply String.app_inj in E. by rewrite <- (rev_involutive s1), E, rev_involutive.
Qed.

Lemma str_inj n m : PyStr.str n = PyStr.str m → n = m.
Proof.
  intros E. assert (Some n = Some m) as [= ->]; [|done].
  by rewrite <- !int_str, E.
Qed.

Lemma blob_path_inj book_name n m :
  blob_path book_name n = blob_path book_name m → n = m.
Proof.
  unfold blob_path, page_filename. intros E.
  apply String.app_inj, (String.app_inj "/"), (String.app_inj "page_") in E.
  by apply app_inj_r, str_inj in E.
Qed.

(** C7. The book "my_page_book" has the page-numbered objects of pages 1, 2
    and 3 and none for page 5, so the answer to a request for page 5 should
    report the range 1-3.  [get_book_page] reports "none": it reads the
    number from the text after the first "page_" of the object name, which
    for this book lies inside the book name ("book/" for every page), so no
    stored page is counted. *)
Theorem get_book_page_range_lost_in_page_slug :
  (∀ n content, bucket_page_slug !! ("my_page_book" +:+ "/page_" +:+ PyStr.str n +:+ ".png")
                  = Some content → 1 ≤ n ≤ 3)
  ∧ is_Some (bucket_page_slug !! ("my_page_book" +:+ "/page_" +:+ PyStr.str 1 +:+ ".png"))
  ∧ is_Some (bucket_page_slug !! ("my_page_book" +:+ "/page_" +:+ PyStr.str 3 +:+ ".png"))
  ∧ PyStr.split "my_page_book/page_1.png" "page_" !! 1%nat = Some "book/"
  ∧ parse_page "my_page_book/page_1.png" = None
  ∧ get_book_page (bucket_gcs bucket_page_slug) (http_down "offline") fs_empty
      "my_page_book" 5 =
      Ok (dict [("status", VStr "error");
                ("message",
                 VStr "Page 5 not found in book 'my_page_book'. Available pages: none");
                ("book_name", VStr "my_page_book");
                ("page_number", VInt 5)]).
Proof.
  split; [|repeat split; vm_compute; (reflexivity || by eexists)].
  intros n content Hn. unfold bucket_page_slug in Hn.
  change ("my_page_book" +:+ "/page_" +:+ PyStr.str n +:+ ".png")
    with (blob_path "my_page_book" n) in Hn.
  apply lookup_insert_Some in Hn as [[Hk _]|[_ Hn]].
  { change "my_page_book/page_1.png" with (blob_path "my_page_book" 1) in Hk.
    apply blob_path_inj in Hk. lia. }
  apply lookup_insert_Some in Hn as [[Hk _]|[_ Hn]].
  { change "my_page_book/page_2.png" with (blob_path "my_page_book" 2) in Hk.
    apply blob_path_inj in Hk. lia. }
  apply lookup_singleton_Some in Hn as [Hk _].
  change "my_page_book/page_3.png" with (blob_path "my_page_book" 3) in Hk.
  apply blob_path_inj in Hk. lia.
Qed.

(** ** The query facade *)

Lemma collect_raises events response_parts e :
  raises_before_final events e → collect events response_parts = Raise e.
Proof.
  intros H. revert response_parts.
  induction H as [e|event rest e Hfinal _ IH]; intros response_parts; simpl; [done|].
  by rewrite Hfinal.
Qed.

Lemma truthy_Some sid : sid ≠ "" → truthy (Some sid) = true.
Proof. intros H. simpl. by apply negb_true_iff, String.eqb_neq. Qed.

Lemma resolve_session_raises {S} (adk : Adk S) svc query user_id session_id app_name e :
  InMemorySessionService adk = Ok svc →
  facade_failure adk query user_id session_id app_name e →
  resolve_session adk svc app_name user_id session_id = Raise e
  ∨ ∃ session svc',
      resolve_session adk svc app_name user_id session_id = Ok (session, svc')
      ∧ raises_before_final
          (run_async adk svc' app_name user_id (s_id session) (user_message query)) e.
Proof.
  intros Hsvc Hfail. unfold resolve_session.
  destruct Hfail as [H|svc0 sid H0 -> Hne Hget|svc0 sid H0 -> Hne Hget Hcr
                    |svc0 H0 Hsid Hcr|svc0 session svc' H0 Hres Hrun];
    try (rewrite H0 in Hsvc; injection Hsvc as ->).
  - congruence.
  - left. rewrite truthy_Some by done. simpl. by rewrite Hget.
  - left. rewrite truthy_Some by done. simpl. by rewrite Hget.
  - left. by destruct Hsid as [-> | ->].
  - right. by exists session, svc'.
Qed.

(** The two shapes of the dictionary returned by the facade. *)
Lemma process_agent_query_cases {S} (adk : Adk S) query user_id session_id app_name :
  (∃ final_response sid,
      process_agent_query adk query user_id session_id app_name =
        Ok (mkQueryResult final_response (Some sid) "success" None))
  ∨ (∃ e,
      process_agent_query adk query user_id session_id app_name =
        Ok (mkQueryResult "" session_id "error" (Some e))).
Proof.
  unfold process_agent_query.
  destruct (InMemorySessionService adk) as [svc|e]; simpl; [|right; by eexists].
  destruct (resolve_session adk svc app_name user_id session_id) as [[session svc']|e];
    simpl; [|right; by eexists].
  destruct (collect _ []) as [response_parts|e]; simpl; [left|right]; by repeat eexists.
Qed.

Lemma process_agent_query_total {S} (adk : Adk S) query user_id session_id app_name :
  ∃ r, process_agent_query adk query user_id session_id app_name = Ok r.
Proof.
  destruct (process_agent_query_cases adk query user_id session_id app_name)
    as [(? & ? & ->)|(? & ->)]; by eexists.
Qed.

Lemma process_agent_query_error {S} (adk : Adk S) query user_id session_id app_name e :
  facade_failure adk query user_id session_id app_name e →
  process_agent_query adk query user_id session_id app_name =
    Ok (mkQueryResult "" session_id "error" (Some e)).
Proof.
  intros Hfail. unfold process_agent_query.
  destruct (InMemorySessionService adk) as [svc|e'] eqn:Hsvc; simpl.
  - destruct (resolve_session_raises adk svc query user_id session_id app_name e
                Hsvc Hfail) as [-> |(session & svc' & -> & Hrun)]; simpl; [done|].
    by rewrite (collect_raises _ _ _ Hrun).
  - destruct Hfail; congruence.
Qed.

(** C6. The facade never raises, and when an exception arises while the
    session is resolved, while the query is dispatched or while the events
    are drained, it returns exactly the dictionary with an empty response,
    the session identifier it was given (possibly [None]), the status
    "error" and the message of the exception. *)
Theorem process_agent_query_failure {S} (adk : Adk S) query user_id session_id app_name :
  (∃ r, process_agent_query adk query user_id session_id app_name = Ok r)
  ∧ ∀ e, facade_failure adk query user_id session_id app_name e →
         process_agent_query adk query user_id session_id app_name =
           Ok (mkQueryResult "" session_id "error" (Some e)).
Proof.
  split.
  - apply process_agent_query_total.
  - intros e. apply process_agent_query_error.
Qed.

Lemma process_agent_query_failure_witness :
  process_agent_query (adk_in_memory "s-1" (agent_raises "model overloaded"))
                      "What is on page 5 of math-1?" "user_123" None book_assistant =
    Ok (mkQueryResult "" None "error" (Some "model overloaded")).
Proof.
  apply (process_agent_query_failure
           (adk_in_memory "s-1" (agent_raises "model overloaded"))
           "What is on page 5 of math-1?" "user_123" None book_assistant).
  eapply fail_run; [reflexivity|reflexivity|].
  vm_compute. constructor.
Defined.

(** The facade over the in-memory service: whatever identifier the caller
    sends, the service built for the call is new, the lookup finds nothing,
    a session named by the drawn identifier is created, and the agent is
    handed a history made of the current message alone. *)
Lemma process_agent_query_in_memory uuid agent query user_id session_id app_name :
  process_agent_query (adk_in_memory uuid agent) query user_id session_id app_name =
    match collect (agent [user_message query]) [] with
    | Ok response_parts =>
        Ok (mkQueryResult (PyStr.join "" response_parts) (Some uuid) "success" None)
    | Raise e => Ok (mkQueryResult "" session_id "error" (Some e))
    end.
Proof.
  unfold process_agent_query, resolve_session. simpl.
  assert (∀ sid, (∅ : Sessions) !! (app_name, user_id, sid) = None) as Hempty
    by (intros; apply lookup_empty).
  destruct (truthy session_id); simpl; rewrite ?Hempty; simpl;
    rewrite lookup_insert_eq; simpl; by destruct (collect _ []).
Qed.

(** C1. Query A is sent without a session identifier and answered under the
    identifier "s-1"; query B is then sent with "s-1".  B is answered under
    the new identifier "s-2", and the agent sees one message in its history,
    as it did for A: the two queries do not share a session. *)
Theorem session_continuity_lost :
  process_agent_query (adk_in_memory "s-1" counting_agent)
                      "What is on page 5 of math-1?" default_user None book_assistant =
    Ok (mkQueryResult "1" (Some "s-1") "success" None)
  ∧ process_agent_query (adk_in_memory "s-2" counting_agent)
                        "Can you explain more?" default_user (Some "s-1") book_assistant =
      Ok (mkQueryResult "1" (Some "s-2") "success" None).
Proof. split; vm_compute; reflexivity. Qed.

(** ** The HTTP surface *)

Section ApiProperties.
Variable validation_error : string.
Context {Svc : Type}.

(** With a session identifier in the request, a failure of the facade is
    answered by an ordinary body. *)
Lemma query_agent_failure_with_session (adk : Adk Svc) request sid e :
  q_session_id request = Some sid →
  facade_failure adk (q_query request) (q_user_id request) (q_session_id request)
                 book_assistant e →
  query_agent validation_error adk request =
    Returns (mkQueryResponse "" sid "error" (Some e)).
Proof.
  intros Hsid Hfail. unfold query_agent.
  rewrite (process_agent_query_error adk _ _ _ _ e Hfail). simpl.
  by rewrite Hsid.
Qed.

(** Without one, the body cannot be built and the endpoint raises. *)
Lemma query_agent_failure_without_session (adk : Adk Svc) request e :
  q_session_id request = None →
  facade_failure adk (q_query request) (q_user_id request) (q_session_id request)
                 book_assistant e →
  query_agent validation_error adk request = HTTPException 500 validation_error.
Proof.
  intros Hsid Hfail. unfold query_agent.
  rewrite (process_agent_query_error adk _ _ _ _ e Hfail). simpl.
  by rewrite Hsid.
Qed.

(** The entry a query contributes to a batch. *)
Lemma batch_entry_cases (adk : Adk Svc) query_request :
  (∃ final_response sid,
      process_agent_query adk (q_query query_request) (q_user_id query_request)
                          (q_session_id query_request) book_assistant =
        Ok (mkQueryResult final_response (Some sid) "success" None)
      ∧ batch_entry validation_error adk query_request =
          Ok (mkQueryResponse final_response sid "success" None))
  ∨ (∃ e sid,
      process_agent_query adk (q_query query_request) (q_user_id query_request)
                          (q_session_id query_request) book_assistant =
        Ok (mkQueryResult "" (Some sid) "error" (Some e))
      ∧ q_session_id query_request = Some sid
      ∧ batch_entry validation_error adk query_request =
          Ok (mkQueryResponse "" sid "error" (Some e)))
  ∨ (∃ e,
      process_agent_query adk (q_query query_request) (q_user_id query_request)
                          (q_session_id query_request) book_assistant =
        Ok (mkQueryResult "" None "error" (Some e))
      ∧ q_session_id query_request = None
      ∧ batch_entry validation_error adk query_request =
          Ok (mkQueryResponse "" "" "error" (Some validation_error))).
Proof.
  unfold batch_entry.
  destruct (process_agent_query_cases adk (q_query query_request) (q_user_id query_request)
              (q_session_id query_request) book_assistant) as [(t & sid & H)|(e & H)].
  - left. exists t, sid. by rewrite H.
  - right. destruct (q_session_id query_request) as [sid|] eqn:Hsid.
    + left. exists e, sid. by rewrite H.
    + right. exists e. by rewrite H.
Qed.

Lemma batch_loop_spec (world : nat → Adk Svc) queries i results :
  ∃ entries,
    batch_loop validation_error world i queries results = Ok (results ++ entries)%list
    ∧ length entries = length queries
    ∧ ∀ j query_request, queries !! j = Some query_request →
        ∃ entry, entries !! j = Some entry
                 ∧ batch_entry validation_error (world (i + j)%nat) query_request = Ok entry.
Proof.
  revert i results. induction queries as [|q queries IH]; intros i results.
  - exists []. simpl. by rewrite app_nil_r.
  - assert (∃ entry, batch_entry validation_error (world i) q = Ok entry) as [entry He].
    { destruct (batch_entry_cases (world i) q)
        as [(? & ? & _ & ->)|[(? & ? & _ & _ & ->)|(? & _ & _ & ->)]]; by eexists. }
    destruct (IH (S i) (results ++ [entry])%list) as (entries & Hloop & Hlen & Hentries).
    exists (entry :: entries). split; [|split].
    + simpl. rewrite He. simpl. by rewrite Hloop, <- app_assoc.
    + simpl. by rewrite Hlen.
    + intros [|j] query_request Hj; simpl in Hj.
      * injection Hj as <-. exists entry. by rewrite Nat.add_0_r.
      * destruct (Hentries j query_request Hj) as (entry' & ? & ?).
        exists entry'. by rewrite Nat.add_succ_r.
Qed.

(** C8. [batch_query] never raises and returns one entry per query, in
    the order of the queries; the entry at a position is the one computed
    from the query at that position and from the behaviour of the runtime
    during that call alone.  A failure of the facade for a query gives an
    entry of status "error" at its position, and a success gives the
    entry carrying the response and the session of that query. *)
Theorem batch_query_semantics (world : nat → Adk Svc) queries :
  ∃ results,
    batch_query validation_error world queries = Ok results
    ∧ length results = length queries
    ∧ ∀ i query_request, queries !! i = Some query_request →
        ∃ entry,
          results !! i = Some entry
          ∧ batch_entry validation_error (world i) query_request = Ok entry
          ∧ (∀ e, facade_failure (world i) (q_query query_request) (q_user_id query_request)
                                 (q_session_id query_request) book_assistant e →
                  status entry = "error")
          ∧ (∀ final_response sid,
               process_agent_query (world i) (q_query query_request) (q_user_id query_request)
                                   (q_session_id query_request) book_assistant =
                 Ok (mkQueryResult final_response (Some sid) "success" None) →
               entry = mkQueryResponse final_response sid "success" None).
Proof.
  destruct (batch_loop_spec world queries 0 []) as (entries & Hloop & Hlen & Hentries).
  exists entries. split; [done|]. split; [done|].
  intros i query_request Hi. destruct (Hentries i query_request Hi) as (entry & Hentry & He).
  simpl in He. exists entry. split; [done|]. split; [done|]. split.
  - intros e Hfail.
    pose proof (process_agent_query_error (world i) _ _ _ _ e Hfail) as Hq.
    destruct (batch_entry_cases (world i) query_request)
      as [(? & ? & Hq' & He')|[(? & ? & _ & _ & He')|(? & _ & _ & He')]];
      rewrite He' in He; injection He as <-; [congruence|done..].
  - intros final_response sid Hq.
    destruct (batch_entry_cases (world i) query_request)
      as [(? & ? & Hq' & He')|[(? & ? & Hq' & _ & He')|(? & Hq' & _ & He')]];
      rewrite He' in He; injection He as <-; congruence.
Qed.

(** C10. [ask_agent] never raises: it returns the response of the facade
    when the status is "success" and otherwise the error message after
    "Error: ", and [ask_agent_simple] returns that text as its body.  A
    failure of the facade with message [e] is thus answered by the text
    "Error: e", which is also what the endpoint answers when the agent
    itself succeeds with the reply "Error: e". *)
Theorem ask_agent_in_band (adk : Adk Svc) query session_id :
  (∃ r, process_agent_query adk query default_user session_id book_assistant = Ok r
        ∧ ask_agent adk query session_id =
            Ok (if String.eqb (r_status r) "success" then r_response r
                else "Error: " +:+ fmt_opt (r_error r))
        ∧ ask_agent_simple adk (mkSimpleQueryRequest query session_id) =
            Returns (mkSimpleQueryResponse
                       (if String.eqb (r_status r) "success" then r_response r
                        else "Error: " +:+ fmt_opt (r_error r))))
  ∧ ∀ e, facade_failure adk query default_user session_id book_assistant e →
      ask_agent adk query session_id = Ok ("Error: " +:+ e)
      ∧ ∀ uuid,
          process_agent_query (adk_in_memory uuid (λ _, say ("Error: " +:+ e)))
                              query default_user session_id book_assistant =
            Ok (mkQueryResult ("Error: " +:+ e) (Some uuid) "success" None)
          ∧ ask_agent (adk_in_memory uuid (λ _, say ("Error: " +:+ e))) query session_id =
              Ok ("Error: " +:+ e).
Proof.
  split.
  - unfold ask_agent_simple, ask_agent. cbn [sq_query sq_session_id].
    destruct (process_agent_query_cases adk query default_user session_id book_assistant)
      as [(t & sid & H)|(e & H)];
      rewrite !H; eexists; (split; [reflexivity|]); simpl; split; reflexivity.
  - intros e Hfail. split.
    + unfold ask_agent.
      by rewrite (process_agent_query_error adk _ _ _ _ e Hfail).
    + intros uuid. unfold ask_agent.
      rewrite !process_agent_query_in_memory. simpl. split; done.
Qed.
End ApiProperties.

(** C2. A request that omits [session_id] reaches a facade that fails with
    "model overloaded".  The facade returns its error dictionary with the
    session identifier [None]; the response body cannot be built from it,
    and the endpoint answers with HTTP 500 and the text of the validation
    error instead of the error body. *)
Theorem query_agent_error_without_session validation_error :
  process_agent_query (adk_in_memory "s-1" (agent_raises "model overloaded"))
                      (q_query request_without_session) (q_user_id request_without_session)
                      (q_session_id request_without_session) book_assistant =
    Ok (mkQueryResult "" None "error" (Some "model overloaded"))
  ∧ query_agent validation_error (adk_in_memory "s-1" (agent_raises "model overloaded"))
                request_without_session =
      HTTPException 500 validation_error
  ∧ batch_query validation_error (λ _, adk_in_memory "s-1" (agent_raises "model overloaded"))
                [request_without_session] =
      Ok [mkQueryResponse "" "" "error" (Some validation_error)].
Proof. repeat split. Qed.

Example batch_of_three_result validation_error :
  batch_query validation_error batch_world batch_of_three =
    Ok [mkQueryResponse "ok" "s-0" "success" None;
        mkQueryResponse "" "s-9" "error" (Some "empty query");
        mkQueryResponse "ok" "s-2" "success" None].
Proof. reflexivity. Qed.

Lemma batch_query_semantics_witness :
  ∃ entry,
    [mkQueryResponse "ok" "s-0" "success" None;
     mkQueryResponse "" "s-9" "error" (Some "empty query");
     mkQueryResponse "ok" "s-2" "success" None] !! 1%nat = Some entry
    ∧ status entry = "error".
Proof.
  destruct (batch_query_semantics "invalid" batch_world batch_of_three)
    as (results & Hres & _ & Hentries).
  rewrite batch_of_three_result in Hres. injection Hres as <-.
  destruct (Hentries 1%nat (mkQueryRequest "" (Some "s-9") default_user) eq_refl)
    as (entry & Hentry & _ & Herr & _).
  exists entry. split; [done|]. apply (Herr "empty query").
  eapply fail_run; [reflexivity|reflexivity|]. vm_compute. constructor.
Defined.

Lemma ask_agent_in_band_witness :
  ask_agent (adk_in_memory "s-1" (agent_raises "model overloaded"))
            "What is on page 5 of math-1?" None = Ok "Error: model overloaded"
  ∧ ask_agent (adk_in_memory "s-1" (λ _, say "Error: model overloaded"))
              "What is on page 5 of math-1?" None = Ok "Error: model overloaded".
Proof.
  destruct (proj2 (ask_agent_in_band (adk_in_memory "s-1" (agent_raises "model overloaded"))
                     "What is on page 5 of math-1?" None) "model overloaded")
    as [Hfail Hok].
  - eapply fail_run; [reflexivity|reflexivity|]. vm_compute. constructor.
  - split; [exact Hfail|]. exact (proj2 (Hok "s-1")).
Defined.

(** * Further properties of the page resolver *)

Local Opaque book_not_found page_not_found page_not_found_local page_success read_error.

(** A bucket that answers without faults never makes the primary lookup
    raise: an absent object ends in one of the two not-found answers. *)
Lemma primary_lookup_bucket_absent (b : Bucket) book_name page_number :
  b !! blob_path book_name page_number = None →
  (∃ books, primary_lookup (bucket_gcs b) book_name page_number =
              Ok (inl (book_not_found book_name page_number books)))
  ∨ (∃ range, primary_lookup (bucket_gcs b) book_name page_number =
                Ok (inl (page_not_found book_name page_number range))).
Proof.
  intros Hk. unfold primary_lookup. simpl.
  rewrite bool_decide_eq_false_2 by (rewrite Hk; by intros [? ?]). simpl.
  destruct (available_pages_of _) as [|p ps]; simpl; [|right; by eexists].
  destruct (bucket_list b (Some _) (Some _)) as [|x xs]; simpl;
    [left|right]; by eexists.
Qed.

Lemma primary_lookup_bucket_present (b : Bucket) book_name page_number stored :
  b !! blob_path book_name page_number = Some stored →
  primary_lookup (bucket_gcs b) book_name page_number = Ok (inr stored).
Proof.
  intros Hk. unfold primary_lookup. simpl.
  rewrite bool_decide_eq_true_2 by (by rewrite Hk). simpl. by rewrite Hk.
Qed.

Lemma primary_lookup_bucket_ok (b : Bucket) book_name page_number :
  ∃ flow, primary_lookup (bucket_gcs b) book_name page_number = Ok flow.
Proof.
  destruct (b !! blob_path book_name page_number) as [stored|] eqn:Hk.
  - exists (inr stored). by apply primary_lookup_bucket_present.
  - destruct (primary_lookup_bucket_absent b book_name page_number Hk)
      as [[? ->]|[? ->]]; by eexists.
Qed.

Lemma status_book_not_found book_name page_number books :
  book_not_found book_name page_number books !! "status" = Some (VStr "error").
Proof. by vm_compute. Qed.
Lemma status_page_not_found book_name page_number range :
  page_not_found book_name page_number range !! "status" = Some (VStr "error").
Proof. by vm_compute. Qed.
Lemma status_page_not_found_local book_name page_number :
  page_not_found_local book_name page_number !! "status" = Some (VStr "error").
Proof. by vm_compute. Qed.
Lemma status_read_error book_name page_number e :
  read_error book_name page_number e !! "status" = Some (VStr "error").
Proof. by vm_compute. Qed.
Lemma status_page_success use_gcs book_name page_number p :
  page_success use_gcs book_name page_number p !! "status" = Some (VStr "success").
Proof. destruct use_gcs; by vm_compute. Qed.
Lemma image_page_success use_gcs book_name page_number p :
  page_success use_gcs book_name page_number p !! "image" = Some (VPart p).
Proof. destruct use_gcs; by vm_compute. Qed.

Local Opaque book_not_found page_not_found page_not_found_local page_success read_error.

(** X1. Over a store that answers without faults, [get_book_page] succeeds
    exactly when the object "{book_name}/page_{page_number}.png" is
    stored. *)
Theorem get_book_page_success_iff_stored (b : Bucket) http fs book_name page_number :
  ∃ d, get_book_page (bucket_gcs b) http fs book_name page_number = Ok d
       ∧ (d !! "status" = Some (VStr "success")
          ↔ is_Some (b !! (book_name +:+ "/page_" +:+ PyStr.str page_number +:+ ".png"))).
Proof.
  change (book_name +:+ "/page_" +:+ PyStr.str page_number +:+ ".png")
    with (blob_path book_name page_number).
  unfold get_book_page, get_book_page_mode, USE_GCS.
  destruct (b !! blob_path book_name page_number) as [stored|] eqn:Hk.
  - rewrite (primary_lookup_bucket_present b _ _ stored Hk). simpl.
    eexists. split; [done|]. by rewrite status_page_success.
  - destruct (primary_lookup_bucket_absent b book_name page_number Hk)
      as [[books ->]|[range ->]]; simpl; eexists; (split; [done|]).
    + rewrite status_book_not_found. split; [done|]. by intros [? ?].
    + rewrite status_page_not_found. split; [done|]. by intros [? ?].
Qed.

(** X2. Over a store that answers without faults, the answer of
    [get_book_page] does not depend on the public endpoint nor on the local
    file system: the fallback is not consulted for an absent page. *)
Theorem get_book_page_healthy_store_only (b : Bucket) http http' fs fs' book_name page_number :
  get_book_page (bucket_gcs b) http fs book_name page_number =
  get_book_page (bucket_gcs b) http' fs' book_name page_number.
Proof.
  unfold get_book_page, get_book_page_mode, USE_GCS.
  by destruct (primary_lookup_bucket_ok b book_name page_number) as [flow ->].
Qed.

Lemma bucket_list_first_nonempty (b : Bucket) p k :
  is_Some (b !! k) → PyStr.startswith k p = true →
  bucket_list b (Some p) (Some 1%nat) ≠ [].
Proof.
  intros Hk Hp E.
  assert (k ∈ bucket_list b (Some p) None) as Hin
    by (by apply elem_of_bucket_list_prefix).
  unfold bucket_list in *.
  destruct (filter _ (bucket_names b)) as [|x l]; [by apply elem_of_nil in Hin|done].
Qed.

(** X3. When the requested object is absent and the book has objects under
    "{book_name}/" of which none yields a page number, the answer is "page
    not found" with the range "none". *)
Theorem get_book_page_no_parsable_page (b : Bucket) http fs book_name page_number k :
  b !! (book_name +:+ "/page_" +:+ PyStr.str page_number +:+ ".png") = None →
  is_Some (b !! k) → PyStr.startswith k (book_name +:+ "/") = true →
  (∀ x, ¬ parsed_page b book_name x) →
  get_book_page (bucket_gcs b) http fs book_name page_number =
    Ok (dict [("status", VStr "error");
              ("message", VStr ("Page " +:+ PyStr.str page_number +:+ " not found in book '"
                                +:+ book_name +:+ "'. Available pages: none"));
              ("book_name", VStr book_name);
              ("page_number", VInt page_number)]).
Proof.
  intros Hk Hin Hpre Hnone.
  change (book_name +:+ "/page_" +:+ PyStr.str page_number +:+ ".png")
    with (blob_path book_name page_number) in Hk.
  unfold get_book_page, get_book_page_mode, USE_GCS, primary_lookup. simpl.
  rewrite bool_decide_eq_false_2 by (rewrite Hk; by intros [? ?]). simpl.
  assert (available_pages_of (bucket_list b (Some (book_name +:+ "/page_")) None) = [])
    as ->.
  { apply elem_of_nil_inv. intros x Hx%parsed_page_spec. by apply (Hnone x). }
  simpl.
  destruct (bucket_list b (Some (book_name +:+ "/")) (Some 1%nat)) as [|x l] eqn:E.
  { by apply (bucket_list_first_nonempty b _ k) in E. }
  reflexivity.
Qed.

Lemma get_book_page_no_parsable_page_witness :
  get_book_page (bucket_gcs bucket_cover_only) (http_down "offline") fs_empty "b" 7 =
    Ok (dict [("status", VStr "error");
              ("message", VStr "Page 7 not found in book 'b'. Available pages: none");
              ("book_name", VStr "b");
              ("page_number", VInt 7)]).
Proof.
  apply (get_book_page_no_parsable_page bucket_cover_only (http_down "offline") fs_empty
           "b" 7 "b/cover.jpg").
  - vm_compute. reflexivity.
  - vm_compute. by eexists.
  - vm_compute. reflexivity.
  - intros x Hx%parsed_page_spec. vm_compute in Hx. by apply elem_of_nil in Hx.
Defined.

(** X4. The object name of a page determines the page: two page numbers of
    a book never share a name, and, for a book whose name does not contain
    "page_", the number the resolver parses out of the name of page [n] is
    [n]. *)
Theorem blob_path_parse_round_trip book_name n :
  (∀ m, book_name +:+ "/page_" +:+ PyStr.str n +:+ ".png"
        = book_name +:+ "/page_" +:+ PyStr.str m +:+ ".png" → n = m)
  ∧ (PyStr.contains "page_" book_name = false →
     parse_page (book_name +:+ "/page_" +:+ PyStr.str n +:+ ".png") = Some n).
Proof.
  split.
  - intros m E. apply String.app_inj, (String.app_inj "/page_") in E.
    by apply app_inj_r, str_inj in E.
  - intros Hbook. by apply (parse_page_blob_path book_name n).
Qed.

Lemma blob_path_parse_round_trip_witness :
  parse_page ("math-1" +:+ "/page_" +:+ PyStr.str 12 +:+ ".png") = Some 12.
Proof.
  apply (proj2 (blob_path_parse_round_trip "math-1" 12)). vm_compute. reflexivity.
Defined.

(** ** The local mode *)

Lemma get_book_page_local gcs http fs book_name page_number :
  get_book_page_mode false gcs http fs book_name page_number =
    Ok (if fs_exists fs (local_page_path fs book_name page_number) then
          match fs_read fs (local_page_path fs book_name page_number) with
          | Ok image_bytes =>
              page_success false book_name page_number
                (mkPart None (Some (mkBlob image_bytes "image/png")))
          | Raise e => read_error book_name page_number e
          end
        else page_not_found_local book_name page_number).
Proof.
  unfold get_book_page_mode, local_lookup, local_page_path. simpl.
  destruct (fs_exists fs _); simpl; [|done].
  by destruct (fs_read fs _).
Qed.

(** X5. With the switch on local files, the store and the public endpoint
    play no part; the page is returned exactly when the file
    "<base>/books/{book_name}/page_{page_number}.png" exists and can be
    read, and the image is then made of the bytes of that file. *)
Theorem get_book_page_local_round_trip gcs gcs' http http' fs book_name page_number :
  get_book_page_mode false gcs http fs book_name page_number =
    get_book_page_mode false gcs' http' fs book_name page_number
  ∧ ∃ d, get_book_page_mode false gcs http fs book_name page_number = Ok d
         ∧ (d !! "status" = Some (VStr "success")
            ↔ fs_exists fs (local_page_path fs book_name page_number) = true
              ∧ ∃ image_bytes,
                  fs_read fs (local_page_path fs book_name page_number) = Ok image_bytes)
         ∧ ∀ image_bytes,
             fs_exists fs (local_page_path fs book_name page_number) = true →
             fs_read fs (local_page_path fs book_name page_number) = Ok image_bytes →
             d !! "image" = Some (VPart (mkPart None (Some (mkBlob image_bytes "image/png")))).
Proof.
  split; [by rewrite !get_book_page_local|].
  rewrite get_book_page_local. eexists. split; [done|].
  destruct (fs_exists fs _); [destruct (fs_read fs _) as [v|e]|].
  - rewrite status_page_success, image_page_success.
    split; [split; [intros _; split; [done|by exists v]|done]|].
    by intros ? _ [= ->].
  - rewrite status_read_error. split; [split; [done|by intros [_ [? ?]]]|done].
  - rewrite status_page_not_found_local. split; [split; [done|by intros [? _]]|done].
Qed.

Lemma get_book_page_local_round_trip_witness :
  ∃ d, get_book_page_mode false (gcs_down "offline") (http_down "offline") fs_one_page
                          "math-1" 5 = Ok d
       ∧ d !! "image" = Some (VPart (mkPart None (Some (mkBlob [x89; x50] "image/png")))).
Proof.
  destruct (proj2 (get_book_page_local_round_trip (gcs_down "offline") (gcs_down "offline")
                     (http_down "offline") (http_down "offline") fs_one_page "math-1" 5))
    as (d & Hd & _ & Himg).
  exists d. split; [done|]. apply Himg; vm_compute; reflexivity.
Defined.

Lemma os_path_join_relative a b :
  PyStr.startswith b "/" = false → PyStr.startswith (os_path_join a b) a = true.
Proof.
  intros Hb. unfold os_path_join. rewrite Hb.
  destruct (_ || _); apply startswith_app.
Qed.

Lemma startswith_trans s p q :
  PyStr.startswith p q = true → PyStr.startswith s p = true → PyStr.startswith s q = true.
Proof.
  unfold PyStr.startswith. rewrite !prefix_spec. intros [r1 ->] [r2 ->].
  exists (r1 +:+ r2). apply app_assoc'.
Qed.

Lemma startswith_page_filename page_number :
  PyStr.startswith (page_filename page_number) "/" = false.
Proof. done. Qed.

Lemma local_page_path_cases fs book_name page_number :
  (PyStr.startswith book_name "/" = false →
   PyStr.startswith (local_page_path fs book_name page_number)
                    (os_path_join (fs_base_dir fs) "books") = true)
  ∧ (PyStr.startswith book_name "/" = true →
     local_page_path fs book_name page_number =
       os_path_join book_name (page_filename page_number)).
Proof.
  unfold local_page_path. split; intros Hb.
  - eapply startswith_trans; [|apply os_path_join_relative, startswith_page_filename].
    by apply os_path_join_relative.
  - unfold os_path_join at 2. by rewrite Hb.
Qed.

(** X6. Where the local mode looks.  For a book name that does not start
    with a slash, the answer depends on the file system only through the
    paths that start with "<base>/books".  For a book name that starts with
    a slash, the base directory plays no part: the file looked up is the
    book name followed by the file name of the page. *)
Theorem get_book_page_local_confinement gcs http fs book_name page_number :
  (PyStr.startswith book_name "/" = false →
   ∀ exists' read',
     (∀ p, PyStr.startswith p (os_path_join (fs_base_dir fs) "books") = true →
           exists' p = fs_exists fs p ∧ read' p = fs_read fs p) →
     get_book_page_mode false gcs http (mkFs (fs_base_dir fs) exists' read')
                        book_name page_number =
       get_book_page_mode false gcs http fs book_name page_number)
  ∧ (PyStr.startswith book_name "/" = true →
     ∀ base_dir',
       get_book_page_mode false gcs http (mkFs base_dir' (fs_exists fs) (fs_read fs))
                          book_name page_number =
         get_book_page_mode false gcs http fs book_name page_number).
Proof.
  split; intros Hb.
  - intros exists' read' Hagree. rewrite !get_book_page_local. simpl.
    change (local_page_path (mkFs (fs_base_dir fs) exists' read') book_name page_number)
      with (local_page_path fs book_name page_number).
    destruct (Hagree _ (proj1 (local_page_path_cases fs book_name page_number) Hb))
      as [-> ->].
    done.
  - intros base_dir'. rewrite !get_book_page_local. simpl.
    by rewrite !(proj2 (local_page_path_cases _ book_name page_number) Hb).
Qed.

Lemma get_book_page_local_confinement_witness :
  get_book_page_mode false (gcs_down "offline") (http_down "offline")
                     (mkFs "/tmp/elsewhere" (fs_exists fs_one_page) (fs_read fs_one_page))
                     "/srv/teacher_agent/books/math-1" 5 =
    get_book_page_mode false (gcs_down "offline") (http_down "offline") fs_one_page
                       "/srv/teacher_agent/books/math-1" 5.
Proof.
  apply (proj2 (get_book_page_local_confinement (gcs_down "offline") (http_down "offline")
                  fs_one_page "/srv/teacher_agent/books/math-1" 5)).
  reflexivity.
Defined.

(** * Further properties of the query facade *)

Lemma join_empty_cons x l : PyStr.join "" (x :: l) = x +:+ PyStr.join "" l.
Proof. destruct l; simpl; [by rewrite app_nil_r'|done]. Qed.

Lemma join_empty_app l1 l2 :
  PyStr.join "" (l1 ++ l2) = PyStr.join "" l1 +:+ PyStr.join "" l2.
Proof.
  induction l1 as [|x l1 IH]; [done|].
  by rewrite <- app_comm_cons, !join_empty_cons, IH, app_assoc'.
Qed.

Lemma collect_yields es rest response_parts :
  Forall (λ event, is_final_response event = false) es →
  collect (yields es rest) response_parts = collect rest (response_parts ++ texts_of es).
Proof.
  intros Hes. revert response_parts.
  induction Hes as [|event es Hevent _ IH]; intros response_parts; simpl.
  - by rewrite app_nil_r.
  - rewrite Hevent, IH. unfold texts_of. simpl. by rewrite app_assoc.
Qed.

(** X7. The response of the facade is made of the texts of the events up
    to the first one flagged as final, in order of arrival; what the run
    would do after that event, an exception included, has no effect.  A run
    that ends without a final event gives all its texts. *)
Theorem process_agent_query_stops_at_final uuid agent query user_id session_id app_name es :
  Forall (λ event, is_final_response event = false) es →
  (∀ final rest,
     agent [user_message query] = yields es (EYield final rest) →
     is_final_response final = true →
     process_agent_query (adk_in_memory uuid agent) query user_id session_id app_name =
       Ok (mkQueryResult (PyStr.join "" (texts_of es) +:+ PyStr.join "" (event_texts final))
                         (Some uuid) "success" None))
  ∧ (agent [user_message query] = yields es EDone →
     process_agent_query (adk_in_memory uuid agent) query user_id session_id app_name =
       Ok (mkQueryResult (PyStr.join "" (texts_of es)) (Some uuid) "success" None)).
Proof.
  intros Hes. split.
  - intros final rest Hrun Hfinal.
    rewrite process_agent_query_in_memory, Hrun, collect_yields by done.
    simpl. by rewrite Hfinal, join_empty_app.
  - intros Hrun. by rewrite process_agent_query_in_memory, Hrun, collect_yields.
Qed.

Lemma process_agent_query_stops_at_final_witness :
  process_agent_query (adk_in_memory "s-1" chatty_agent) "What is on page 5 of math-1?"
                      default_user None book_assistant =
    Ok (mkQueryResult "Looking at page 5. It is about limits." (Some "s-1") "success" None).
Proof.
  refine (proj1 (process_agent_query_stops_at_final "s-1" chatty_agent
                   "What is on page 5 of math-1?" default_user None book_assistant
                   [text_event "Looking at page 5. " false] _)
                (text_event "It is about limits." true) (ERaise "connection lost")
                eq_refl eq_refl).
  by repeat constructor.
Defined.

(** X8. An empty session identifier is treated as a missing one: no lookup
    is made, and the call behaves as the call without identifier, except
    that an error result echoes the empty text. *)
Theorem process_agent_query_empty_session_id {S} (adk : Adk S) query user_id app_name :
  ∃ r, process_agent_query adk query user_id None app_name = Ok r
       ∧ process_agent_query adk query user_id (Some "") app_name =
           Ok (if String.eqb (r_status r) "success" then r
               else mkQueryResult (r_response r) (Some "") (r_status r) (r_error r)).
Proof.
  unfold process_agent_query, resolve_session. simpl.
  destruct (InMemorySessionService adk) as [svc|e]; simpl; [|by eexists].
  destruct (create_session adk svc app_name user_id) as [[session svc']|e]; simpl;
    [|by eexists].
  destruct (collect _ []) as [response_parts|e]; simpl; by eexists.
Qed.

(** X9. Where the returned session identifier comes from: on success it
    is the identifier of the session the service found for the identifier
    of the caller, or of the session the service created because the caller
    sent none, sent the empty text, or sent one the service did not know. *)
Theorem process_agent_query_session_provenance {S} (adk : Adk S)
    query user_id session_id app_name final_response sid :
  process_agent_query adk query user_id session_id app_name =
    Ok (mkQueryResult final_response (Some sid) "success" None) →
  ∃ svc, InMemorySessionService adk = Ok svc
    ∧ ((∃ given session,
          session_id = Some given ∧ given ≠ ""
          ∧ get_session adk svc app_name user_id given = Ok (Some session)
          ∧ s_id session = sid)
       ∨ (∃ session svc',
            create_session adk svc app_name user_id = Ok (session, svc')
            ∧ s_id session = sid
            ∧ (session_id = None ∨ session_id = Some ""
               ∨ ∃ given, session_id = Some given
                          ∧ get_session adk svc app_name user_id given = Ok None))).
Proof.
  unfold process_agent_query, resolve_session.
  destruct (InMemorySessionService adk) as [svc|e]; simpl; [|done].
  intros H. exists svc. split; [done|].
  destruct session_id as [given|]; simpl in H.
  - destruct (String.eqb_spec given "") as [->|Hne]; simpl in H.
    + right. destruct (create_session adk svc app_name user_id) as [[session svc']|e] eqn:Hcreate;
        simpl in H; [|done].
      destruct (collect _ []); simpl in H; [|done]. injection H as _ <-.
      exists session, svc'. auto.
    + destruct (get_session adk svc app_name user_id given) as [[session|]|e] eqn:Hget;
        simpl in H;
        [| |done].
      * left. destruct (collect _ []); simpl in H; [|done]. injection H as _ <-.
        exists given, session. repeat split; auto.
      * right. destruct (create_session adk svc app_name user_id) as [[session svc']|e] eqn:Hcreate;
          simpl in H; [|done].
        destruct (collect _ []); simpl in H; [|done]. injection H as _ <-.
        exists session, svc'. split; [done|]. split; [done|]. right; right. by exists given.
  - right. destruct (create_session adk svc app_name user_id) as [[session svc']|e] eqn:Hcreate;
      simpl in H; [|done].
    destruct (collect _ []); simpl in H; [|done]. injection H as _ <-.
    exists session, svc'. auto.
Qed.

Lemma process_agent_query_session_provenance_witness :
  ∃ session svc',
    create_session (adk_in_memory "s-2" counting_agent) ∅ book_assistant default_user
      = Ok (session, svc')
    ∧ s_id session = "s-2".
Proof.
  destruct (process_agent_query_session_provenance (adk_in_memory "s-2" counting_agent)
              "Can you explain more?" default_user (Some "s-1") book_assistant "1" "s-2")
    as (svc & Hsvc & [(given & session & _ & _ & Hget & _)|(session & svc' & Hc & Hid & _)]).
  - vm_compute. reflexivity.
  - injection Hsvc as <-. vm_compute in Hget. discriminate Hget.
  - injection Hsvc as <-. by exists session, svc'.
Defined.

(** * Further properties of the HTTP surface *)

(** The three ways [query_agent] can end. *)
Lemma query_agent_cases {Svc} validation_error (adk : Adk Svc) request :
  (∃ final_response sid,
      process_agent_query adk (q_query request) (q_user_id request)
                          (q_session_id request) book_assistant =
        Ok (mkQueryResult final_response (Some sid) "success" None)
      ∧ query_agent validation_error adk request =
          Returns (mkQueryResponse final_response sid "success" None))
  ∨ (∃ e sid,
      process_agent_query adk (q_query request) (q_user_id request)
                          (q_session_id request) book_assistant =
        Ok (mkQueryResult "" (Some sid) "error" (Some e))
      ∧ q_session_id request = Some sid
      ∧ query_agent validation_error adk request =
          Returns (mkQueryResponse "" sid "error" (Some e)))
  ∨ (∃ e,
      process_agent_query adk (q_query request) (q_user_id request)
                          (q_session_id request) book_assistant =
        Ok (mkQueryResult "" None "error" (Some e))
      ∧ q_session_id request = None
      ∧ query_agent validation_error adk request = HTTPException 500 validation_error).
Proof.
  unfold query_agent.
  destruct (process_agent_query_cases adk (q_query request) (q_user_id request)
              (q_session_id request) book_assistant) as [(t & sid & H)|(e & H)].
  - left. exists t, sid. by rewrite H.
  - right. destruct (q_session_id request) as [sid|] eqn:Hsid.
    + left. exists e, sid. by rewrite H.
    + right. exists e. by rewrite H.
Qed.

(** X10. [POST /query] answers 500 in one situation only: the request
    carries no session identifier and the facade reports an error; the
    detail is then the validation text.  Every body it returns repeats the
    four fields of the result of the facade. *)
Theorem query_agent_outcomes {Svc} validation_error (adk : Adk Svc) request :
  (∀ status_code detail,
     query_agent validation_error adk request = HTTPException status_code detail →
     status_code = 500 ∧ detail = validation_error ∧ q_session_id request = None
     ∧ ∃ e, process_agent_query adk (q_query request) (q_user_id request)
                                (q_session_id request) book_assistant =
              Ok (mkQueryResult "" None "error" (Some e)))
  ∧ (∀ body,
       query_agent validation_error adk request = Returns body →
       process_agent_query adk (q_query request) (q_user_id request)
                           (q_session_id request) book_assistant =
         Ok (mkQueryResult (response body) (Some (session_id body)) (status body) (error body))).
Proof.
  destruct (query_agent_cases validation_error adk request)
    as [(t & sid & Hq & ->)|[(e & sid & Hq & Hsid & ->)|(e & Hq & Hsid & ->)]].
  - split; [done|]. by intros body [= <-].
  - split; [done|]. by intros body [= <-].
  - split; [|done]. intros code detail [= <- <-]. rewrite <- Hsid at 1. eauto.
Qed.

Lemma query_agent_outcomes_witness :
  process_agent_query (adk_in_memory "s-1" counting_agent) "What is on page 5 of math-1?"
                      default_user None book_assistant =
    Ok (mkQueryResult "1" (Some "s-1") "success" None).
Proof.
  apply (proj2 (query_agent_outcomes "invalid" (adk_in_memory "s-1" counting_agent)
                  request_without_session)
               (mkQueryResponse "1" "s-1" "success" None)).
  vm_compute. reflexivity.
Defined.

(** X11. The batch endpoint agrees with [POST /query] on every query that
    [POST /query] answers with a body; where [POST /query] answers 500, the
    batch holds an error entry with an empty session identifier whose error
    text is the detail of that answer. *)
Theorem batch_entry_agrees_with_query {Svc} validation_error (adk : Adk Svc) request :
  (∀ body,
     query_agent validation_error adk request = Returns body →
     batch_entry validation_error adk request = Ok body)
  ∧ (∀ status_code detail,
       query_agent validation_error adk request = HTTPException status_code detail →
       batch_entry validation_error adk request =
         Ok (mkQueryResponse "" "" "error" (Some detail))).
Proof.
  unfold batch_entry.
  destruct (query_agent_cases validation_error adk request)
    as [(t & sid & Hq & ->)|[(e & sid & Hq & Hsid & ->)|(e & Hq & Hsid & ->)]];
    rewrite Hq; simpl.
  - split; [|done]. by intros body [= <-].
  - split; [|done]. by intros body [= <-].
  - split; [done|]. intros code detail [= <- <-]. by rewrite Hsid.
Qed.

Lemma batch_entry_agrees_with_query_witness :
  batch_entry "invalid" (adk_in_memory "s-1" (agent_raises "model overloaded"))
              request_without_session =
    Ok (mkQueryResponse "" "" "error" (Some "invalid")).
Proof.
  apply (proj2 (batch_entry_agrees_with_query "invalid"
                  (adk_in_memory "s-1" (agent_raises "model overloaded"))
                  request_without_session) 500 "invalid").
  vm_compute. reflexivity.
Defined.

Lemma batch_loop_results {Svc} validation_error (world : nat → Adk Svc) queries i results :
  batch_loop validation_error world i queries results =
    (entries ← batch_loop validation_error world i queries []; Ok (results ++ entries)%list).
Proof.
  revert i results. induction queries as [|q queries IH]; intros i results; simpl.
  - by rewrite app_nil_r.
  - destruct (batch_entry validation_error (world i) q) as [entry|e]; simpl; [|done].
    rewrite (IH (S i) (results ++ [entry])%list), (IH (S i) [entry]).
    destruct (batch_loop validation_error world (S i) queries []) as [entries|e]; simpl;
      [|done].
    by rewrite <- app_assoc.
Qed.

Lemma batch_loop_shift {Svc} validation_error (world : nat → Adk Svc) queries i k :
  batch_loop validation_error world (i + k) queries [] =
    batch_loop validation_error (λ j, world (i + j)%nat) k queries [].
Proof.
  revert k. induction queries as [|q queries IH]; intros k; simpl; [done|].
  destruct (batch_entry validation_error (world (i + k)%nat) q) as [entry|e]; simpl; [|done].
  rewrite (batch_loop_results _ world), (batch_loop_results _ (λ j, world (i + j)%nat)).
  by rewrite <- Nat.add_succ_r, IH.
Qed.

Lemma batch_loop_app {Svc} validation_error (world : nat → Adk Svc) first second i :
  batch_loop validation_error world i (first ++ second) [] =
    (results1 ← batch_loop validation_error world i first [];
     results2 ← batch_loop validation_error world (i + length first) second [];
     Ok (results1 ++ results2)%list).
Proof.
  revert i. induction first as [|q first IH]; intros i; simpl.
  - rewrite Nat.add_0_r. by destruct (batch_loop _ _ i second []).
  - destruct (batch_entry validation_error (world i) q) as [entry|e]; simpl; [|done].
    rewrite (batch_loop_results _ _ (first ++ second)), (batch_loop_results _ _ first), IH.
    rewrite Nat.add_succ_r.
    destruct (batch_loop _ _ (S i) first []) as [r1|e]; simpl; [|done].
    by destruct (batch_loop _ _ (S (i + length first)) second []).
Qed.

(** X12. A batch can be cut anywhere: the answer to the queries
    [first ++ second] is the answer to [first] followed by the answer to
    [second] as handled by the runtime from call [length first] on; the
    empty batch is answered by the empty list. *)
Theorem batch_query_app {Svc} validation_error (world : nat → Adk Svc) first second :
  batch_query validation_error world [] = Ok []
  ∧ ∃ results1 results2,
      batch_query validation_error world first = Ok results1
      ∧ batch_query validation_error (λ i, world (length first + i)%nat) second = Ok results2
      ∧ batch_query validation_error world (first ++ second) = Ok (results1 ++ results2)%list.
Proof.
  split; [done|]. unfold batch_query.
  rewrite batch_loop_app, <- (batch_loop_shift _ world second (length first) 0).
  rewrite Nat.add_0_r. simpl.
  destruct (batch_loop_spec validation_error world first 0 []) as (r1 & -> & _).
  destruct (batch_loop_spec validation_error world second (length first) [])
    as (r2 & -> & _).
  by exists r1, r2.
Qed.

(** X13. The streaming endpoint always sends two frames: the result of the
    facade, whatever its status, and the end marker.  The frame of its own
    error handler is never sent. *)
Theorem stream_query_two_frames {Svc} json_dumps_result json_dumps_error
    (adk : Adk Svc) request :
  ∃ result,
    process_agent_query adk (q_query request) (q_user_id request)
                        (q_session_id request) book_assistant = Ok result
    ∧ stream_query json_dumps_result json_dumps_error adk request =
        ["data: " +:+ json_dumps_result result +:+ nl +:+ nl;
         "data: [DONE]" +:+ nl +:+ nl].
Proof.
  unfold stream_query, generate.
  destruct (process_agent_query_total adk (q_query request) (q_user_id request)
              (q_session_id request) book_assistant) as [result ->].
  by exists result.
Qed.

(** * The command-line chat *)

Lemma print_final_yields es rest out :
  print_final (yields es rest) out =
    print_final rest (out +:+ PyStr.join "" (texts_of (final_events es))).
Proof.
  revert out. induction es as [|event es IH]; intros out; simpl.
  - by rewrite app_nil_r'.
  - rewrite IH. unfold final_events, texts_of. simpl.
    destruct (is_final_response event) eqn:E.
    + rewrite filter_cons_True by done. simpl.
      by rewrite join_empty_app, app_assoc'.
    + by rewrite filter_cons_False by (by rewrite E).
Qed.

Lemma chat_with_agent_out {S} (adk : Adk S) session_service query session_id :
  chat_with_agent adk session_service query session_id =
    match print_final (run_async adk session_service APP_NAME USER_ID session_id
                                 (user_message query)) (chat_header query) with
    | (out, Ok _) => (out +:+ nl +:+ nl, Ok ())
    | (out, Raise e) => (out, Raise e)
    end.
Proof.
  unfold chat_with_agent, chat_header. by rewrite !app_assoc'.
Qed.

(** X14. [chat_with_agent] prints, after its header, the texts of the
    events flagged as final and of no other event, and it reads the run to
    its end: for a run that ends it closes with a blank line, and for a run
    that raises the exception escapes after the texts printed so far. *)
Theorem chat_with_agent_prints_final_texts {S} (adk : Adk S) session_service
    query session_id es :
  (run_async adk session_service APP_NAME USER_ID session_id (user_message query)
     = yields es EDone →
   chat_with_agent adk session_service query session_id =
     (chat_header query +:+ PyStr.join "" (texts_of (final_events es)) +:+ nl +:+ nl, Ok ()))
  ∧ (∀ e,
       run_async adk session_service APP_NAME USER_ID session_id (user_message query)
         = yields es (ERaise e) →
       chat_with_agent adk session_service query session_id =
         (chat_header query +:+ PyStr.join "" (texts_of (final_events es)), Raise e)).
Proof.
  split.
  - intros Hrun. rewrite chat_with_agent_out, Hrun, print_final_yields. simpl.
    by rewrite !app_assoc'.
  - intros e Hrun. by rewrite chat_with_agent_out, Hrun, print_final_yields.
Qed.

Lemma chat_with_agent_prints_final_texts_witness :
  chat_with_agent (adk_in_memory "s-1" chatty_agent)
                  (<[(APP_NAME, USER_ID, "s-1") := mkSession "s-1" []]> ∅)
                  "What is on page 5 of math-1?" "s-1" =
    (chat_header "What is on page 5 of math-1?" +:+ "It is about limits.",
     Raise "connection lost").
Proof.
  apply (proj2 (chat_with_agent_prints_final_texts
                  (adk_in_memory "s-1" chatty_agent)
                  (<[(APP_NAME, USER_ID, "s-1") := mkSession "s-1" []]> ∅)
                  "What is on page 5 of math-1?" "s-1"
                  [text_event "Looking at page 5. " false;
                   text_event "It is about limits." true])
               "connection lost").
  vm_compute. reflexivity.
Defined.

(** * Publishing pages *)

Lemma upload_loop_lookup files (bucket : Bucket) n total out
    (bucket' : Bucket) out' m :
  upload_loop files bucket n total out = (bucket', out', Ok m) →
  m = (n + length files)%nat
  ∧ (∀ k, k ∉ files.*1 → bucket' !! k = bucket !! k)
  ∧ (NoDup files.*1 → ∀ k content, (k, EFile content) ∈ files → bucket' !! k = Some content).
Proof.
  revert bucket n out. induction files as [|[k0 [c0|]] files IH]; intros bucket n out; simpl.
  - intros [= <- _ <-]. split; [lia|]. split; [done|]. intros _ k c Hin.
    by apply elem_of_nil in Hin.
  - intros H. apply IH in H as (-> & Hother & Hin). split; [lia|]. split.
    + intros k Hk. apply not_elem_of_cons in Hk as [Hne Hk].
      by rewrite (Hother k Hk), lookup_insert_ne.
    + intros [Hk0 Hnd]%NoDup_cons k c [[= -> ->]|Hkc]%elem_of_cons.
      * by rewrite (Hother k0 Hk0), lookup_insert_eq.
      * by apply Hin.
  - done.
Qed.

Lemma upload_directory_to_gcs_inv (bucket : Bucket) bucket_name local_directory tree
    (bucket' : Bucket) out m :
  upload_directory_to_gcs bucket bucket_name local_directory tree = (bucket', out, Ok m) →
  ∃ out', upload_loop (rglob_png tree) bucket 0 (length (rglob_png tree))
            ["📤 Uploading " +:+ str_nat (length (rglob_png tree)) +:+ " PNG files to GCS..."]
          = (bucket', out', Ok m).
Proof.
  unfold upload_directory_to_gcs.
  destruct (upload_loop _ _ _ _ _) as [[b o] [c|e]]; [|done].
  intros [= <- _ <-]. by eexists.
Qed.

Lemma NoDup_rglob_png (tree : Tree) : NoDup tree.*1 → NoDup (rglob_png tree).*1.
Proof.
  unfold rglob_png. induction tree as [|[k e] tree IH]; [done|]. simpl.
  intros [Hk Hnd]%NoDup_cons. destruct (decide (PyStr.endswith k ".png" = true)) as [E|E].
  - rewrite filter_cons_True by done. simpl. apply NoDup_cons. split; [|by apply IH].
    intros ((k' & e') & -> & [_ Hin]%list_elem_of_filter)%list_elem_of_fmap.
    apply Hk. apply list_elem_of_fmap. by exists (k', e').
  - rewrite filter_cons_False by done. by apply IH.
Qed.

(** X15. When [upload_directory_to_gcs] returns, it returns the number of
    entries of the tree whose name ends in ".png"; the bucket then holds
    each such file under its relative path with the content of the file,
    and every object whose name is not the path of such an entry is as it
    was before. *)
Theorem upload_directory_to_gcs_result (bucket : Bucket) bucket_name local_directory tree
    (bucket' : Bucket) out m :
  NoDup tree.*1 →
  upload_directory_to_gcs bucket bucket_name local_directory tree = (bucket', out, Ok m) →
  m = length (rglob_png tree)
  ∧ (∀ k content, png_file tree k content → bucket' !! k = Some content)
  ∧ (∀ k, (PyStr.endswith k ".png" = false ∨ k ∉ tree.*1) → bucket' !! k = bucket !! k).
Proof.
  intros Hnd [out' H]%upload_directory_to_gcs_inv.
  apply upload_loop_lookup in H as (-> & Hother & Hin). split; [done|]. split.
  - intros k c [Hk Hpng]. apply Hin; [by apply NoDup_rglob_png|].
    unfold rglob_png. by apply list_elem_of_filter.
  - intros k Hk. apply Hother.
    intros ((k' & e') & -> & [Hpng Hin']%list_elem_of_filter)%list_elem_of_fmap.
    simpl in *. destruct Hk as [Hk|Hk]; [congruence|].
    apply Hk, list_elem_of_fmap. by exists (k', e').
Qed.

Lemma upload_directory_to_gcs_result_witness :
  ∃ (bucket' : Bucket) out,
    upload_directory_to_gcs bucket_cover_only "bakaloria-ai-assistance-books"
                            "teacher_agent/books" tree_books = (bucket', out, Ok 2%nat)
    ∧ bucket' !! "math-1/page_2.png" = Some [x02]
    ∧ bucket' !! "b/cover.jpg" = Some [xff; xd8]
    ∧ bucket' !! "notes.txt" = None.
Proof.
  pose (r := upload_directory_to_gcs bucket_cover_only "bakaloria-ai-assistance-books"
               "teacher_agent/books" tree_books).
  assert (r = (r.1.1, r.1.2, Ok 2%nat)) as E by (vm_compute; reflexivity).
  exists r.1.1, r.1.2. split; [exact E|].
  destruct (upload_directory_to_gcs_result bucket_cover_only "bakaloria-ai-assistance-books"
              "teacher_agent/books" tree_books r.1.1 r.1.2 2) as (_ & Hin & Hother).
  - vm_compute. repeat constructor; set_solver.
  - exact E.
  - split; [apply Hin|split; rewrite Hother].
    + split; [set_solver|vm_compute; reflexivity].
    + vm_compute; reflexivity.
    + left. vm_compute; reflexivity.
    + vm_compute; reflexivity.
    + left. vm_compute; reflexivity.
Defined.

Lemma endswith_blob_path book_name page_number :
  PyStr.endswith (blob_path book_name page_number) ".png" = true.
Proof.
  unfold blob_path, page_filename. rewrite <- !app_assoc'. apply endswith_app.
Qed.

(** X16. From disk to the assistant: once a tree holding the file
    "{book_name}/page_{page_number}.png" has been uploaded, [get_book_page]
    over the resulting bucket returns that page with the bytes of the
    file. *)
Theorem upload_then_get_book_page (bucket : Bucket) bucket_name local_directory tree
    (bucket' : Bucket) out m http fs book_name page_number content :
  NoDup tree.*1 →
  upload_directory_to_gcs bucket bucket_name local_directory tree = (bucket', out, Ok m) →
  (book_name +:+ "/page_" +:+ PyStr.str page_number +:+ ".png", EFile content) ∈ tree →
  ∃ d, get_book_page (bucket_gcs bucket') http fs book_name page_number = Ok d
       ∧ d !! "status" = Some (VStr "success")
       ∧ d !! "image" = Some (VPart (mkPart None (Some (mkBlob content "image/png")))).
Proof.
  intros Hnd [out' H]%upload_directory_to_gcs_inv Hin.
  apply upload_loop_lookup in H as (_ & _ & Hlook).
  assert (bucket' !! blob_path book_name page_number = Some content) as Hk.
  { apply Hlook; [by apply NoDup_rglob_png|]. unfold rglob_png.
    apply list_elem_of_filter. split; [|done].
    exact (endswith_blob_path book_name page_number). }
  eexists. split.
  - apply get_book_page_present; simpl; [done| |by rewrite Hk].
    by rewrite bool_decide_eq_true_2.
  - by rewrite status_page_success, image_page_success.
Qed.

Lemma upload_then_get_book_page_witness :
  ∃ d, get_book_page
         (bucket_gcs (upload_directory_to_gcs bucket_cover_only "bakaloria-ai-assistance-books"
                        "teacher_agent/books" tree_books).1.1)
         (http_down "offline") fs_empty "math-1" 2 = Ok d
       ∧ d !! "status" = Some (VStr "success")
       ∧ d !! "image" = Some (VPart (mkPart None (Some (mkBlob [x02] "image/png")))).
Proof.
  pose (r := upload_directory_to_gcs bucket_cover_only "bakaloria-ai-assistance-books"
               "teacher_agent/books" tree_books).
  assert (r = (r.1.1, r.1.2, Ok 2%nat)) as E by (vm_compute; reflexivity).
  apply (upload_then_get_book_page bucket_cover_only "bakaloria-ai-assistance-books"
           "teacher_agent/books" tree_books r.1.1 r.1.2 2).
  - vm_compute. repeat constructor; set_solver.
  - exact E.
  - vm_compute. set_solver.
Defined.


Lemma upload_loop_partial before k e after (bucket : Bucket) n total out :
  (∀ k' e', (k', ERaises e') ∉ before) →
  ∃ (bucket' : Bucket) out',
    upload_loop (before ++ (k, ERaises e) :: after) bucket n total out
      = (bucket', out', Raise e)
    ∧ (∀ k', k' ∉ before.*1 → bucket' !! k' = bucket !! k')
    ∧ (NoDup before.*1 → ∀ k' content, (k', EFile content) ∈ before →
         bucket' !! k' = Some content).
Proof.
  revert bucket n out. induction before as [|[k0 [c0|e0]] before IH];
    intros bucket n out Hfiles; simpl.
  - exists bucket, out. split; [done|]. split; [done|].
    intros _ k' c Hin. by apply elem_of_nil in Hin.
  - match goal with
    | |- context [upload_loop _ ?b ?m _ ?o] =>
        destruct (IH b m o) as (bucket' & out' & -> & Hother & Hin)
    end.
    { intros k' e' Hk'. apply (Hfiles k' e'). by right. }
    exists bucket', out'. split; [done|]. split.
    + intros k' Hk'. apply not_elem_of_cons in Hk' as [Hne Hk'].
      by rewrite (Hother k' Hk'), lookup_insert_ne.
    + intros [Hk0 Hnd]%NoDup_cons k' c [[= -> ->]|Hkc]%elem_of_cons.
      * by rewrite (Hother k0 Hk0), lookup_insert_eq.
      * by apply Hin.
  - exfalso. apply (Hfiles k0 e0). by left.
Qed.

(** X17. When [blob.upload_from_filename] raises for an entry whose name
    ends in ".png" (a directory, a file that cannot be read, a request the
    store refuses or that does not reach it), [upload_directory_to_gcs]
    raises that exception at once.  The upload is neither undone nor
    continued: the files met before that entry are in the bucket with their
    content, and every object under another name is as it was before, so
    the files after the entry are not uploaded. *)
Theorem upload_directory_to_gcs_partial_upload (bucket : Bucket) bucket_name local_directory
    tree before k e after :
  rglob_png tree = (before ++ (k, ERaises e) :: after)%list →
  (∀ k' e', (k', ERaises e') ∉ before) →
  NoDup before.*1 →
  ∃ (bucket' : Bucket) out,
    upload_directory_to_gcs bucket bucket_name local_directory tree = (bucket', out, Raise e)
    ∧ (∀ k' content, (k', EFile content) ∈ before → bucket' !! k' = Some content)
    ∧ (∀ k', k' ∉ before.*1 → bucket' !! k' = bucket !! k').
Proof.
  intros Htree Hfiles Hnd. unfold upload_directory_to_gcs. rewrite Htree.
  match goal with
  | |- context [upload_loop _ ?b ?m ?t ?o] =>
      destruct (upload_loop_partial before k e after b m t o Hfiles)
        as (bucket' & out' & -> & Hother & Hin)
  end.
  exists bucket', out'. split; [done|]. split; [by apply Hin|done].
Qed.

Lemma upload_directory_to_gcs_partial_upload_witness :
  ∃ (bucket' : Bucket) out,
    upload_directory_to_gcs bucket_cover_only "bakaloria-ai-assistance-books"
      "teacher_agent/books" tree_with_refused_upload
    = (bucket', out,
       Raise "403 POST: caller does not have storage.objects.create access")
    ∧ (∀ k' content, (k', EFile content) ∈ [("math-1/page_1.png", EFile [x01])] →
         bucket' !! k' = Some content)
    ∧ (∀ k', k' ∉ [("math-1/page_1.png", EFile [x01])].*1 →
         bucket' !! k' = bucket_cover_only !! k').
Proof.
  apply (upload_directory_to_gcs_partial_upload bucket_cover_only
           "bakaloria-ai-assistance-books" "teacher_agent/books" tree_with_refused_upload
           [("math-1/page_1.png", EFile [x01])] "math-1/page_2.png"
           "403 POST: caller does not have storage.objects.create access"
           [("math-1/page_3.png", EFile [x03])]).
  - vm_compute. reflexivity.
  - intros k' e' [[=]|Hk']%elem_of_cons. by apply elem_of_nil in Hk'.
  - vm_compute. repeat constructor; set_solver.
Defined.

(** A directory named like a page stops the upload after the first page. *)
Example upload_directory_to_gcs_directory_entry :
  ∃ (bucket' : Bucket) out,
    upload_directory_to_gcs bucket_cover_only "bakaloria-ai-assistance-books"
      "teacher_agent/books" tree_with_png_dir
    = (bucket', out,
       Raise "[Errno 21] Is a directory: 'teacher_agent/books/math-1/old.png'")
    ∧ bucket' !! "math-1/page_1.png" = Some [x01]
    ∧ bucket' !! "math-1/page_2.png" = None
    ∧ out = ["📤 Uploading 3 PNG files to GCS..."].
Proof.
  pose (r := upload_directory_to_gcs bucket_cover_only "bakaloria-ai-assistance-books"
               "teacher_agent/books" tree_with_png_dir).
  exists r.1.1, r.1.2. repeat split; vm_compute; reflexivity.
Qed.

(** * Rasterising a PDF *)

Section PdfProperties.
Context {Image : Type}.
Implicit Types (env : PdfEnv Image) (images : list Image).

Lemma save_pages_spec env output_dir image_format images i out files k :
  (∀ j image, (j < k)%nat → images !! j = Some image →
     image_save Image env image
       (os_path_join output_dir ("page_" +:+ str_nat (i + j) +:+ "." +:+ image_format))
       (upper image_format) = Ok ()) →
  (k = length images
   ∨ ∃ image e, images !! k = Some image
       ∧ image_save Image env image
           (os_path_join output_dir ("page_" +:+ str_nat (i + k) +:+ "." +:+ image_format))
           (upper image_format) = Raise e) →
  ∃ out',
    save_pages Image env output_dir image_format i images out files =
      (out',
       (files ++ imap (λ j image,
                         (os_path_join output_dir
                            ("page_" +:+ str_nat (i + j) +:+ "." +:+ image_format),
                          image, upper image_format)) (take k images))%list,
       match images !! k with
       | Some image =>
           image_save Image env image
             (os_path_join output_dir ("page_" +:+ str_nat (i + k) +:+ "." +:+ image_format))
             (upper image_format)
       | None => Ok ()
       end).
Proof.
  revert i out files k. induction images as [|image images IH]; intros i out files k Hok Hk.
  - simpl. rewrite take_nil. simpl. rewrite app_nil_r. by eexists.
  - destruct k as [|k].
    + destruct Hk as [Hk|(image' & e & [= <-] & He)]; [done|].
      simpl. unfold image_filename. rewrite Nat.add_0_r in *. rewrite He, app_nil_r.
      by eexists.
    + simpl. unfold image_filename.
      pose proof (Hok 0%nat image (Nat.lt_0_succ k) eq_refl) as H0.
      rewrite Nat.add_0_r in H0. rewrite H0.
      destruct (IH (S i) (out ++ ["Saved: " +:+ "page_" +:+ str_nat i +:+ "." +:+ image_format])%list
                  (files ++ [(os_path_join output_dir
                                ("page_" +:+ str_nat i +:+ "." +:+ image_format),
                              image, upper image_format)])%list k) as [out' IH'].
      * intros j image' Hj Hlook. simpl. rewrite <- Nat.add_succ_r.
        apply Hok; [lia|done].
      * destruct Hk as [Hk|(image' & e & Hlook & He)]; [left; simpl in Hk; lia|].
        right. exists image', e. split; [done|]. simpl. by rewrite <- Nat.add_succ_r.
      * exists out'. rewrite IH', <- app_assoc. simpl.
        rewrite Nat.add_0_r, Nat.add_succ_r.
        assert (∀ l : list Image,
                  imap (λ j image0,
                          (os_path_join output_dir
                             ("page_" +:+ str_nat (S (i + j)) +:+ "." +:+ image_format),
                           image0, upper image_format)) l =
                  imap ((λ j image0,
                           (os_path_join output_dir
                              ("page_" +:+ str_nat (i + j) +:+ "." +:+ image_format),
                            image0, upper image_format)) ∘ S) l) as ->; [|done].
        intros l. apply imap_ext. intros j x _. simpl. by rewrite Nat.add_succ_r.
Qed.

(** X18. When the PDF exists, the output directory can be made and the
    conversion and every save succeed, [pdf_to_images] returns and has
    saved one file per page, in page order, the page at position [j] of the
    document (from 0) under "page_{j+1}.{image_format}" in the output
    directory, which is "<stem>_images" unless one is given. *)
Theorem pdf_to_images_numbering env pdf_path output_dir image_format dpi images :
  pdf_exists Image env pdf_path = true →
  pdf_makedirs Image env (output_dir_of env pdf_path output_dir) = Ok () →
  convert_from_path Image env pdf_path dpi = Ok images →
  (∀ j image, images !! j = Some image →
     image_save Image env image
       (os_path_join (output_dir_of env pdf_path output_dir)
                     ("page_" +:+ str_nat (S j) +:+ "." +:+ image_format))
       (upper image_format) = Ok ()) →
  outcome Image (pdf_to_images Image env pdf_path output_dir image_format dpi) = Returned
  ∧ saved Image (pdf_to_images Image env pdf_path output_dir image_format dpi) =
      imap (page_file (output_dir_of env pdf_path output_dir) image_format) images.
Proof.
  intros Hex Hmk Hconv Hsave. unfold pdf_to_images. rewrite Hex. simpl.
  change (match output_dir with Some d => d | None => _ end)
    with (output_dir_of env pdf_path output_dir).
  rewrite Hmk, Hconv.
  match goal with
  | |- context [save_pages _ _ _ _ 1 images ?o []] =>
      destruct (save_pages_spec env (output_dir_of env pdf_path output_dir) image_format
                  images 1 o [] (length images)) as [out' ->]
  end.
  - intros j image _ Hj. by apply Hsave.
  - by left.
  - rewrite lookup_ge_None_2 by done. simpl. by rewrite take_ge.
Qed.

(** X19. The ways [pdf_to_images] stops early.  A missing PDF and a failed
    conversion end in [sys.exit(1)] with nothing saved.  When the save of
    the page at position [k] is the first to fail, the call ends in
    [sys.exit(1)] and the pages before it stay saved.  A failure to create
    the output directory is not handled: the exception escapes. *)
Theorem pdf_to_images_failures env pdf_path output_dir image_format dpi :
  (pdf_exists Image env pdf_path = false →
   pdf_to_images Image env pdf_path output_dir image_format dpi =
     mkPdfRun Image ["Error: PDF file '" +:+ pdf_path +:+ "' not found."] [] (SysExit 1))
  ∧ (pdf_exists Image env pdf_path = true →
     (∀ e, pdf_makedirs Image env (output_dir_of env pdf_path output_dir) = Raise e →
        outcome Image (pdf_to_images Image env pdf_path output_dir image_format dpi)
          = Uncaught e
        ∧ saved Image (pdf_to_images Image env pdf_path output_dir image_format dpi) = [])
     ∧ (pdf_makedirs Image env (output_dir_of env pdf_path output_dir) = Ok () →
        (∀ e, convert_from_path Image env pdf_path dpi = Raise e →
           outcome Image (pdf_to_images Image env pdf_path output_dir image_format dpi)
             = SysExit 1
           ∧ saved Image (pdf_to_images Image env pdf_path output_dir image_format dpi) = [])
        ∧ (∀ images k image e,
             convert_from_path Image env pdf_path dpi = Ok images →
             images !! k = Some image →
             image_save Image env image
               (os_path_join (output_dir_of env pdf_path output_dir)
                             ("page_" +:+ str_nat (S k) +:+ "." +:+ image_format))
               (upper image_format) = Raise e →
             (∀ j image', (j < k)%nat → images !! j = Some image' →
                image_save Image env image'
                  (os_path_join (output_dir_of env pdf_path output_dir)
                                ("page_" +:+ str_nat (S j) +:+ "." +:+ image_format))
                  (upper image_format) = Ok ()) →
             outcome Image (pdf_to_images Image env pdf_path output_dir image_format dpi)
               = SysExit 1
             ∧ saved Image (pdf_to_images Image env pdf_path output_dir image_format dpi) =
                 imap (page_file (output_dir_of env pdf_path output_dir) image_format)
                      (take k images)))).
Proof.
  unfold pdf_to_images. split; [by intros ->|]. intros ->. simpl.
  change (match output_dir with Some d => d | None => _ end)
    with (output_dir_of env pdf_path output_dir).
  split; [by intros e ->|]. intros ->. split; [by intros e ->|].
  intros images k image e -> Hk He Hok.
  match goal with
  | |- context [save_pages _ _ _ _ 1 images ?o []] =>
      destruct (save_pages_spec env (output_dir_of env pdf_path output_dir) image_format
                  images 1 o [] k) as [out' ->]
  end.
  - intros j image' Hj Hlook. by apply Hok.
  - right. by exists image, e.
  - rewrite Hk. simpl. by rewrite He.
Qed.
End PdfProperties.

Lemma pdf_to_images_failures_witness :
  outcome string (pdf_to_images string pdf_env_torn "12-sci-math-1.pdf" None "png" 200)
    = SysExit 1
  ∧ saved string (pdf_to_images string pdf_env_torn "12-sci-math-1.pdf" None "png" 200)
    = [("12-sci-math-1_images/page_1.png", "cover", "PNG")].
Proof.
  destruct (pdf_to_images_failures pdf_env_torn "12-sci-math-1.pdf" None "png" 200)
    as [_ H].
  destruct (H eq_refl) as [_ H']. destruct (H' eq_refl) as [_ H''].
  apply (H'' ["cover"; "torn"; "index"] 1%nat "torn" "cannot write");
    [reflexivity..|].
  intros [|j] image' Hj Hlook; [by injection Hlook as <-|lia].
Defined.

Lemma pdf_to_images_numbering_witness :
  outcome string (pdf_to_images string pdf_env_ok "12-sci-math-1.pdf" (Some "books/math-1")
                                "png" 200) = Returned
  ∧ saved string (pdf_to_images string pdf_env_ok "12-sci-math-1.pdf" (Some "books/math-1")
                                "png" 200)
    = [("books/math-1/page_1.png", "cover", "PNG");
       ("books/math-1/page_2.png", "index", "PNG")].
Proof.
  apply (pdf_to_images_numbering pdf_env_ok "12-sci-math-1.pdf" (Some "books/math-1")
           "png" 200 ["cover"; "index"]); reflexivity.
Defined.
